(** * TransportDecoratorRegistry: a shallow embedding and its properties

    The registry of [src/TransportDecoratorRegistry.js] stores
    TransportDecorator instances, the decoration rules of every transport
    identifier and (in the first variant of the file) one compiled decoration
    function per identifier.  The source file holds two variants of the
    class; they are embedded as the modules [Precompiled] and [Lazy].

    JavaScript values are an inductive type, exceptions are a result type,
    and every method that reads or mutates [this] is a computation of a
    small state-and-exception monad over the object it touches. *)

From Stdlib Require Import Ascii.
From stdpp Require Import base option list strings gmap.

Set Warnings "-register-all".

(** ** JavaScript values *)

(** A number is given by the two things this program asks of one: its
    ToBoolean (false for [0], [-0] and [NaN]) and its ToString, as in
    [{| num_truthy := true; num_text := "1e+21" |}]. *)
Record Number : Type := {
  num_truthy : bool;
  num_text : string
}.

(** An object is a plain object, given by its own fields; an array has its
    elements and no other own field.  Functions are not values of this type
    (classes, plugin methods and compiled closures have types of their own
    below), so no field of an object is callable. *)
Inductive Value : Type :=
| VUndefined
| VNull
| VBool (b : bool)
| VNum (n : Number)
| VStr (s : string)
| VObj (fields : list (string * Value))
| VArr (elems : list Value).

Definition Fields : Type := list (string * Value).

(** [{}] *)
Definition emptyObject : Value := VObj [].

(** ToBoolean, as used by [!x], [x || y] and [if (x)]. *)
Definition truthy (v : Value) : bool :=
  match v with
  | VUndefined | VNull => false
  | VBool b => b
  | VNum n => num_truthy n
  | VStr s => negb (String.eqb s EmptyString)
  | VObj _ | VArr _ => true
  end.

(** [a || b] *)
Definition jsOr (a b : Value) : Value := if truthy a then a else b.

(** A parameter with a default value, [(x = d) => ...]: the default is
    taken exactly when the argument is [undefined] (or omitted). *)
Definition defaultArg (x d : Value) : Value :=
  match x with
  | VUndefined => d
  | _ => x
  end.

(** [typeof v === "string"] *)
Definition isString (v : Value) : bool :=
  match v with VStr _ => true | _ => false end.

(** [Array.isArray(v)] *)
Definition isArray (v : Value) : bool :=
  match v with VArr _ => true | _ => false end.

Definition isNullish (v : Value) : bool :=
  match v with VUndefined | VNull => true | _ => false end.

Fixpoint assoc (k : string) (fs : Fields) : option Value :=
  match fs with
  | [] => None
  | (k', v) :: fs' => if String.eqb k k' then Some v else assoc k fs'
  end.

(** [obj.k = v] on the own fields of an object. *)
Fixpoint setField (k : string) (v : Value) (fs : Fields) : Fields :=
  match fs with
  | [] => [(k, v)]
  | (k', v') :: fs' =>
      if String.eqb k k' then (k, v) :: fs' else (k', v') :: setField k v fs'
  end.

(** ** Strings *)

(** [s.includes(part)] *)
Fixpoint includes (part s : string) : bool :=
  String.prefix part s
  || match s with
     | EmptyString => false
     | String _ s' => includes part s'
     end.

(** The double-quote character, as a string. *)
Definition dquote : string := String (ascii_of_nat 34) EmptyString.

(** [s[0] === "."] *)
Definition startsWithDot (s : string) : bool :=
  match s with
  | String c _ => Ascii.eqb c "."%char
  | EmptyString => false
  end.

(** [s.split(".")] *)
Fixpoint splitDot (s : string) : list string :=
  match s with
  | EmptyString => [EmptyString]
  | String c s' =>
      if Ascii.eqb c "."%char then EmptyString :: splitDot s'
      else match splitDot s' with
           | h :: t => String c h :: t
           | [] => [String c EmptyString]
           end
  end.

(** ** Exceptions and the state-and-exception monad *)

Inductive JsError : Type :=
| Error (message : string)        (* new Error(message) *)
| TypeError (message : string).   (* new TypeError(message), also the runtime's own *)

Definition messageOf (e : JsError) : string :=
  match e with
  | Error m | TypeError m => m
  end.

Inductive Result (A : Type) : Type :=
| Ok (a : A)
| Throw (e : JsError).
Arguments Ok {A} a.
Arguments Throw {A} e.

Definition isOk {A} (r : Result A) : bool :=
  match r with Ok _ => true | Throw _ => false end.

(** A computation over a mutable object of type [St]: it returns or throws,
    and in both cases leaves the object in some state. *)
Definition M (St A : Type) : Type := St -> Result A * St.

Definition ret {St A} (a : A) : M St A := fun s => (Ok a, s).

Definition bind {St A B} (m : M St A) (k : A -> M St B) : M St B :=
  fun s =>
    match m s with
    | (Ok a, s') => k a s'
    | (Throw e, s') => (Throw e, s')
    end.

Definition throw {St A} (e : JsError) : M St A := fun s => (Throw e, s).

Definition gets {St A} (f : St -> A) : M St A := fun s => (Ok (f s), s).

Definition modify {St} (f : St -> St) : M St unit := fun s => (Ok tt, f s).

Definition liftR {St A} (r : Result A) : M St A := fun s => (r, s).

Declare Scope js_scope.
Delimit Scope js_scope with js.
Notation "x <- c ;; k" := (bind c (fun x => k))
  (at level 100, c at next level, right associativity) : js_scope.
Notation "c ;;; k" := (bind c (fun _ => k))
  (at level 100, right associativity) : js_scope.
Open Scope js_scope.

(** [for (const x of l) body(x)] *)
Fixpoint forOf {St A} (body : A -> M St unit) (l : list A) : M St unit :=
  match l with
  | [] => ret tt
  | x :: l' => body x ;;; forOf body l'
  end.

(** [l.reduce((acc, x) => f(acc, x), init)] *)
Fixpoint reduce {St A B} (f : B -> A -> M St B) (l : list A) (init : B) : M St B :=
  match l with
  | [] => ret init
  | x :: l' => acc <- f init x ;; reduce f l' acc
  end.

(** [l.map(f)] for a callback that may throw. *)
Fixpoint mapR {A B} (f : A -> Result B) (l : list A) : Result (list B) :=
  match l with
  | [] => Ok []
  | x :: l' =>
      match f x with
      | Throw e => Throw e
      | Ok y => match mapR f l' with
                | Throw e => Throw e
                | Ok ys => Ok (y :: ys)
                end
      end
  end.

(** Run a computation on one component of a larger state. *)
Definition zoom {St T A} (proj : St -> T) (upd : T -> St -> St) (m : M T A) : M St A :=
  fun s => let '(r, t) := m (proj s) in (r, upd t s).

(** Property access [v.k] for a key [k] that is not a built-in property:
    it throws on [undefined] and [null] and reads own fields of objects. *)
Definition getProp (v : Value) (k : string) : Result Value :=
  match v with
  | VUndefined =>
      Throw (TypeError ("Cannot read properties of undefined (reading '" +:+ k +:+ "')"))
  | VNull =>
      Throw (TypeError ("Cannot read properties of null (reading '" +:+ k +:+ "')"))
  | VObj fs => Ok (default VUndefined (assoc k fs))
  | _ => Ok VUndefined
  end.

(** The method call [settings.hasOwnProperty(k)].  The method is looked up
    on the value itself: an own field named [hasOwnProperty] hides the one
    of [Object.prototype], and no field is callable. *)
Definition hasOwnProperty (v : Value) (k : string) : Result bool :=
  match v with
  | VUndefined =>
      Throw (TypeError ("Cannot read properties of undefined (reading 'hasOwnProperty')"))
  | VNull =>
      Throw (TypeError ("Cannot read properties of null (reading 'hasOwnProperty')"))
  | VObj fs =>
      match assoc "hasOwnProperty" fs with
      | Some _ => Throw (TypeError "settings.hasOwnProperty is not a function")
      | None => Ok (bool_decide (is_Some (assoc k fs)))
      end
  | _ => Ok false
  end.

(** The conversion to a string of a template literal [`${v}`] and of
    [v + "text"].  Both convert an object through its [toString] and
    [valueOf]: [Object.prototype.valueOf] returns the object itself, so the
    text comes from [toString], and an own field of that name, which is not
    callable, leaves no conversion.  An array is joined with commas, its
    [undefined] and [null] elements giving the empty string. *)
Fixpoint toStringV (v : Value) : Result string :=
  match v with
  | VUndefined => Ok "undefined"
  | VNull => Ok "null"
  | VBool true => Ok "true"
  | VBool false => Ok "false"
  | VNum n => Ok (num_text n)
  | VStr s => Ok s
  | VObj fs =>
      match assoc "toString" fs with
      | Some _ => Throw (TypeError "Cannot convert object to primitive value")
      | None => Ok "[object Object]"
      end
  | VArr l =>
      match mapR (fun e => match e with
                           | VUndefined | VNull => Ok EmptyString
                           | _ => toStringV e
                           end) l with
      | Throw e => Throw e
      | Ok parts => Ok (String.concat "," parts)
      end
  end.

(** ** TransportDecorators

    A TransportDecorator is code outside the registry.  Its class is given
    by what [new] does and by the two methods the registry looks for; a
    method receives the own fields of the instance it is called on and
    returns them updated.  A decorator does not call back into the
    registry. *)

Definition DecorateFn : Type :=
  Fields -> Value -> Value -> Value -> Result Value * Fields.

Definition ConfigureFn : Type := Fields -> Value -> Result unit * Fields.

Record DecoratorClass : Type := {
  construct : Result Fields;               (* new decorator() *)
  decorateMethod : option DecorateFn;      (* None: no "decorate" in instance *)
  configureMethod : option ConfigureFn     (* None: no "configure" in instance *)
}.

(** An instance: its class, its own fields and, as a ghost field, the
    arguments of every [configure] call it has received, oldest first. *)
Record Instance : Type := {
  inst_class : DecoratorClass;
  inst_fields : Fields;
  inst_configured : list Value
}.

(** What [require(path)] and [requireFn(moduleName)] return: a module that
    may itself be a class, and that may export classes by name. *)
Record ModuleExports : Type := {
  asClass : option DecoratorClass;
  exportNamed : string -> option DecoratorClass
}.

Definition Require : Type := string -> Result ModuleExports.

(** [new decorator()] *)
Definition new (decorator : option DecoratorClass) : Result Instance :=
  match decorator with
  | None => Throw (TypeError "decorator is not a constructor")
  | Some c =>
      match construct c with
      | Throw e => Throw e
      | Ok fs => Ok {| inst_class := c; inst_fields := fs; inst_configured := [] |}
      end
  end.

(** [name in instance] for the two method names. *)
Definition hasDecorate (i : Instance) : bool :=
  bool_decide (is_Some (decorateMethod (inst_class i))).
Definition hasConfigure (i : Instance) : bool :=
  bool_decide (is_Some (configureMethod (inst_class i))).

(** [instance.name = name] *)
Definition setName (name : string) (i : Instance) : Instance :=
  {| inst_class := inst_class i;
     inst_fields := setField "name" (VStr name) (inst_fields i);
     inst_configured := inst_configured i |}.

(** [instance.configure(config)]: the instance after the call, or the
    exception the call raised. *)
Definition configure (i : Instance) (config : Value) : Result Instance :=
  match configureMethod (inst_class i) with
  | None => Throw (TypeError "instance.configure is not a function")
  | Some f =>
      match f (inst_fields i) config with
      | (Throw e, _) => Throw e
      | (Ok _, fs) =>
          Ok {| inst_class := inst_class i;
                inst_fields := fs;
                inst_configured := inst_configured i ++ [config] |}
      end
  end.

(** The [decorators] map of a registry; its keys are strings. *)
Abbreviation Decorators := (gmap string Instance).

(** [map.get(k)] and [map.has(k)] for a map with string keys and an
    arbitrary key value [k]. *)
Definition mapGet {A} (m : gmap string A) (k : Value) : option A :=
  match k with
  | VStr s => m !! s
  | _ => None
  end.

Definition mapHas {A} (m : gmap string A) (k : Value) : bool :=
  bool_decide (is_Some (mapGet m k)).

(** [decorators.get(decorator).decorate(message, config, options)]: the
    call runs on the instance stored in the map, whose fields it may
    update. *)
Definition invokeDecorate (decorator message config options : Value)
  : M Decorators Value :=
  fun ds =>
    match decorator with
    | VStr name =>
        match ds !! name with
        | None =>
            (Throw (TypeError "Cannot read properties of undefined (reading 'decorate')"), ds)
        | Some i =>
            match decorateMethod (inst_class i) with
            | None => (Throw (TypeError "decorate is not a function"), ds)
            | Some f =>
                let '(r, fs) := f (inst_fields i) message config options in
                (r, <[name := {| inst_class := inst_class i;
                                 inst_fields := fs;
                                 inst_configured := inst_configured i |}]> ds)
            end
        end
    | _ => (Throw (TypeError "Cannot read properties of undefined (reading 'decorate')"), ds)
    end.

(** *** loadDecorators

    The method is the same text in both variants of the class and touches
    [this.decorators] only; [loadDecoratorsInto] is its body on that map.
    [require] is the module loader of the runtime, [requireFn] the loader
    passed as first argument; [config] is [Object.entries(config)], whose
    keys are distinct. *)

Definition msgNoRequire (name : string) : string :=
  "TransportDecorator [" +:+ name +:+ "] does not specify a 'require'".
Definition msgInvalidRequire (name : string) : string :=
  "TransportDecorator [" +:+ name +:+ "] has an invalid 'require'".
Definition msgNoDecorate (name : string) : string :=
  "TransportDecorator " +:+ name
  +:+ " requires a 'decorate(TransportStream): TransportStream' method".
Definition msgNoConfigure (name : string) : string :=
  "TransportDecorator " +:+ name +:+ " requires a 'configure(object)' method".

(** The three forms of a [require] setting. *)
Definition resolve (require requireFn : Require) (rootPath path : string)
  : Result (option DecoratorClass) :=
  if startsWithDot path then
    match require (rootPath +:+ "/" +:+ path) with
    | Throw e => Throw e
    | Ok m => Ok (asClass m)
    end
  else if negb (includes "." path) then
    match require path with
    | Throw e => Throw e
    | Ok m => Ok (asClass m)
    end
  else
    let parts := splitDot path in
    let moduleName := nth 0 parts EmptyString in
    let exportName := nth 1 parts EmptyString in
    match requireFn moduleName with
    | Throw e => Throw e
    | Ok m => Ok (exportNamed m exportName)
    end.

(** [settings.config || {}] *)
Definition sourceConfigOf (settings : Value) : Result Value :=
  match getProp settings "config" with
  | Throw e => Throw e
  | Ok c => Ok (jsOr c emptyObject)
  end.

(** One iteration of the loop of [loadDecorators]. *)
Definition loadDecorator (require requireFn : Require) (rootPath : string)
    (entry : string * Value) : M Decorators unit :=
  let '(name, settings) := entry in
  own <- liftR (hasOwnProperty settings "require") ;;
  if negb own then throw (Error (msgNoRequire name)) else
  req <- liftR (getProp settings "require") ;;
  match req with
  | VStr path =>
      sourceConfig <- liftR (sourceConfigOf settings) ;;
      decorator <- liftR (resolve require requireFn rootPath path) ;;
      instance <- liftR (new decorator) ;;
      if negb (hasDecorate instance) then throw (Error (msgNoDecorate name)) else
      if negb (hasConfigure instance) then throw (Error (msgNoConfigure name)) else
      let instance := setName name instance in
      instance <- liftR (configure instance sourceConfig) ;;
      modify (fun ds : Decorators => <[name := instance]> ds)
  | _ => throw (TypeError (msgInvalidRequire name))
  end.

Definition loadDecoratorsInto (require requireFn : Require) (rootPath : string)
    (config : list (string * Value)) : M Decorators unit :=
  forOf (loadDecorator require requireFn rootPath) config.

(** ** Transport streams

    A TransportStream class has a static [identifier], a constructor and
    the methods of its prototype.  Here a method is a computation on the
    state of the stream instance it is called on, which is what a method
    is that calls no method of [this] that a subclass overrides; [write]
    is taken to be of this kind.  The methods that call [this.write] are
    those of a [StreamClass] below. *)

Record TransportStream (S : Type) : Type := {
  identifier : Value;
  newStream : list Value -> Result S;
  methods : string -> option (list Value -> M S Value)
}.
Arguments identifier {S} _.
Arguments newStream {S} _ _.
Arguments methods {S} _ _.

(** The [i]-th argument of a call; missing arguments are [undefined]. *)
Definition arg (i : nat) (args : list Value) : Value := nth i args VUndefined.

(** [super.name(args)] inside a subclass of [base], whose instances live
    next to the registry in the state. *)
Definition superCall {R S} (base : TransportStream S) (name : string)
    (args : list Value) : M (R * S) Value :=
  match methods base name with
  | None => throw (TypeError ("(intermediate value)." +:+ name +:+ " is not a function"))
  | Some f => zoom snd (fun s (w : R * S) => (fst w, s)) (f args)
  end.

(** ** Messages of the errors that loadRules and decorate throw *)

Definition msgNotArray (identifier : string) : string :=
  "TransportDecoration rules for " +:+ dquote +:+ identifier +:+ dquote
  +:+ " must be an array.".
Definition msgNoDecorator (identifier : string) : string :=
  "TransportDecoration rule for " +:+ dquote +:+ identifier +:+ dquote
  +:+ " does not specify a decorator.".
(** [decorator] is the text that the template literal made of the rule's
    decorator. *)
Definition msgNonExistent (identifier decorator : string) : string :=
  "TransportDecoration rule for " +:+ dquote +:+ identifier +:+ dquote
  +:+ " specifies a non-existent decorator: " +:+ decorator.

Definition msgNoIdentifier : string :=
  "TransportStreams must define a 'identifier' getter.".

(** ** First variant: decorations compiled by loadRules *)

Module Precompiled.

(** An element of [decoratorFunctions]: the closure
    [(message, options) => this.getDecorator(decorator).decorate(...)]
    with the two variables it captured from the rule. *)
Record DecoratorFunction : Type := {
  fn_decorator : Value;
  fn_config : Value
}.

(** [decorations] holds the [decorateMessage] closures; such a closure is
    determined by the [decoratorFunctions] array it captured. *)
Record Registry : Type := {
  decorators : Decorators;
  rules : gmap string (list Value);
  decorations : gmap string (list DecoratorFunction)
}.

Definition constructor : Registry :=
  {| decorators := ∅; rules := ∅; decorations := ∅ |}.

Definition setDecorators (ds : Decorators) (r : Registry) : Registry :=
  {| decorators := ds; rules := rules r; decorations := decorations r |}.

(** Run a computation on [this.decorators]. *)
Definition onDecorators {A} (m : M Decorators A) : M Registry A :=
  zoom decorators setDecorators m.

Definition loadDecorators (require requireFn : Require) (rootPath : string)
    (config : list (string * Value)) : M Registry unit :=
  onDecorators (loadDecoratorsInto require requireFn rootPath config).

Definition getDecorator (r : Registry) (name : Value) : option Instance :=
  mapGet (decorators r) name.

(** [None] stands for [undefined], which [rules.get] returns for a key
    the map does not hold. *)
Definition getRules (r : Registry) (identifier : Value) : option (list Value) :=
  if negb (mapHas (rules r) identifier) then Some []
  else mapGet (rules r) identifier.

Definition getDecoration (r : Registry) (identifier : Value)
  : option (list DecoratorFunction) :=
  mapGet (decorations r) identifier.

(** The body of the validation loop over the rules of one identifier. *)
Definition validateRule (identifier : string) (rule : Value) : M Registry unit :=
  decorator <- liftR (getProp rule "decorator") ;;
  if negb (truthy decorator) then throw (Error (msgNoDecorator identifier)) else
  has <- gets (fun r => mapHas (decorators r) decorator) ;;
  if negb has then
    text <- liftR (toStringV decorator) ;;
    throw (Error (msgNonExistent identifier text)) else
  ret tt.

(** The callback of [rules.map]: destructuring the rule and returning the
    closure over its [decorator] and [config]. *)
Definition compileRule (rule : Value) : Result DecoratorFunction :=
  match getProp rule "decorator" with
  | Throw e => Throw e
  | Ok decorator =>
      match getProp rule "config" with
      | Throw e => Throw e
      | Ok config => Ok {| fn_decorator := decorator; fn_config := config |}
      end
  end.

(** Calling an element of [decoratorFunctions]:
    [this.getDecorator(decorator).decorate(message, config || {}, options)];
    [this] is the registry at the time of the call. *)
Definition callDecoratorFunction (f : DecoratorFunction) (message options : Value)
  : M Registry Value :=
  onDecorators
    (invokeDecorate (fn_decorator f) message (jsOr (fn_config f) emptyObject) options).

(** Calling the closure [decorateMessage] that captured
    [decoratorFunctions]. *)
Definition decorateMessage (decoratorFunctions : list DecoratorFunction)
    (message options : Value) : M Registry Value :=
  let options := defaultArg options emptyObject in
  reduce (fun acc decorator => callDecoratorFunction decorator acc options)
         decoratorFunctions message.

(** One iteration of the loop of [loadRules]. *)
Definition loadRuleSet (entry : string * Value) : M Registry unit :=
  let '(identifier, rulesValue) := entry in
  match rulesValue with
  | VArr rs =>
      forOf (validateRule identifier) rs ;;;
      decoratorFunctions <- liftR (mapR compileRule rs) ;;
      modify (fun r =>
                {| decorators := decorators r;
                   rules := <[identifier := rs]> (rules r);
                   decorations := <[identifier := decoratorFunctions]> (decorations r) |})
  | _ => throw (Error (msgNotArray identifier))
  end.

(** [config] is [Object.entries(config)]. *)
Definition loadRules (config : list (string * Value)) : M Registry unit :=
  forOf loadRuleSet config.

(** The class returned by [decorate]: it extends [base] and its [write]
    captured [decoration]. *)
Record Decorated (S : Type) : Type := {
  base : TransportStream S;
  decoration : list DecoratorFunction
}.
Arguments base {S} _.
Arguments decoration {S} _.

(** [identifier] is the text that the template literal made of the
    identifier. *)
Definition msgNoDecorations (identifier : string) : string :=
  "No TransportDecorations are defined for identifier: " +:+ identifier.

Definition decorate {S} (r : Registry) (streamConstructor : TransportStream S)
  : Result (Decorated S) :=
  let identifier := identifier streamConstructor in
  if negb (truthy identifier) then Throw (Error msgNoIdentifier) else
  match getDecoration r identifier with
  | None =>
      match toStringV identifier with
      | Throw e => Throw e
      | Ok text => Throw (Error (msgNoDecorations text))
      end
  | Some decoration => Ok {| base := streamConstructor; decoration := decoration |}
  end.

(** Run a computation of the registry in the state of a program that
    holds the registry and a stream instance. *)
Definition onRegistry {S A} (m : M Registry A) : M (Registry * S) A :=
  zoom fst (fun r (w : Registry * S) => (r, snd w)) m.

(** The [write] method of the returned class. *)
Definition write {S} (d : Decorated S) (args : list Value) : M (Registry * S) Value :=
  let message := arg 0 args in
  let options := arg 1 args in
  message <- onRegistry (decorateMessage (decoration d) message options) ;;
  superCall (base d) "write" [message; options] ;;;
  ret VUndefined.

(** The static [identifier] of the returned class, which declares [write]
    and nothing else. *)
Definition identifierOf {S} (d : Decorated S) : Value := identifier (base d).

End Precompiled.

(** ** Stream classes whose code calls [this.write]

    The class that [decorate] returns extends the stream class and
    declares [write] only, so its instances run the constructor and every
    other method of the stream class with themselves as [this]: a call
    [this.write(...)] in that code reaches the [write] of the returned
    class.  The constructor and the methods other than [write] are
    therefore functions of what [this.write] does on the instance they
    run on; the instance lives next to the registry. *)

Definition ThisWrite (S : Type) : Type :=
  list Value -> M (Precompiled.Registry * S) Value.

Definition Body (S : Type) : Type :=
  ThisWrite S -> list Value -> M (Precompiled.Registry * S) Value.

Record StreamClass (S : Type) : Type := {
  stream : TransportStream S;                (* its identifier and its write *)
  constructorBody : Body S;                  (* constructor(...args) { ... } *)
  methodBodies : string -> option (Body S)   (* the methods other than write *)
}.
Arguments stream {S} _.
Arguments constructorBody {S} _.
Arguments methodBodies {S} _ _.

(** [this.write] on an instance of the stream class itself. *)
Definition writeOf {S} (c : StreamClass S) : ThisWrite S :=
  fun args =>
    match methods (stream c) "write" with
    | None => throw (TypeError "this.write is not a function")
    | Some f => zoom snd (fun s (w : Precompiled.Registry * S) => (fst w, s)) (f args)
    end.

(** [new C(...args)] and [instance.name(...args)] for a class with the
    code of [c] whose instances have [thisWrite] as their [write]; the
    construction runs on the state of the instance being made. *)
Definition newWith {S} (c : StreamClass S) (thisWrite : ThisWrite S)
    (args : list Value) : M (Precompiled.Registry * S) Value :=
  constructorBody c thisWrite args.

Definition callWith {S} (c : StreamClass S) (thisWrite : ThisWrite S)
    (name : string) (args : list Value) : M (Precompiled.Registry * S) Value :=
  if String.eqb name "write" then thisWrite args
  else match methodBodies c name with
       | None => throw (TypeError ("instance." +:+ name +:+ " is not a function"))
       | Some body => body thisWrite args
       end.

(** The stream class itself. *)
Definition newOriginal {S} (c : StreamClass S) := newWith c (writeOf c).
Definition callOriginal {S} (c : StreamClass S) := callWith c (writeOf c).

(** The class that [decorate] returned for [stream c]. *)
Definition newDecorated {S} (c : StreamClass S) (d : Precompiled.Decorated S) :=
  newWith c (Precompiled.write d).
Definition callDecorated {S} (c : StreamClass S) (d : Precompiled.Decorated S) :=
  callWith c (Precompiled.write d).

(** ** Second variant: decorators assembled by decorate *)

Module Lazy.

Record Registry : Type := {
  decorators : Decorators;
  rules : gmap string (list Value)
}.

Definition constructor : Registry := {| decorators := ∅; rules := ∅ |}.

Definition setDecorators (ds : Decorators) (r : Registry) : Registry :=
  {| decorators := ds; rules := rules r |}.

Definition onDecorators {A} (m : M Decorators A) : M Registry A :=
  zoom decorators setDecorators m.

Definition loadDecorators (require requireFn : Require) (rootPath : string)
    (config : list (string * Value)) : M Registry unit :=
  onDecorators (loadDecoratorsInto require requireFn rootPath config).

(** [None] stands for [undefined], which [rules.get] returns for a key
    the map does not hold. *)
Definition getRules (r : Registry) (identifier : Value) : option (list Value) :=
  if negb (mapHas (rules r) identifier) then Some []
  else mapGet (rules r) identifier.

Definition validateRule (identifier : string) (rule : Value) : M Registry unit :=
  decorator <- liftR (getProp rule "decorator") ;;
  if negb (truthy decorator) then
    throw (Error (msgNoDecorator identifier)) else
  has <- gets (fun r => mapHas (decorators r) decorator) ;;
  if negb has then
    text <- liftR (toStringV decorator) ;;
    throw (Error (msgNonExistent identifier text)) else
  ret tt.

Definition loadRuleSet (entry : string * Value) : M Registry unit :=
  let '(identifier, rulesValue) := entry in
  match rulesValue with
  | VArr rs =>
      forOf (validateRule identifier) rs ;;;
      modify (fun r =>
                {| decorators := decorators r;
                   rules := <[identifier := rs]> (rules r) |})
  | _ => throw (Error (msgNotArray identifier))
  end.

Definition loadRules (config : list (string * Value)) : M Registry unit :=
  forOf loadRuleSet config.

(** An element of [decorators] in [decorate]: the closure
    [message => this.decorators.get(decorator).decorate(message, config || {})]. *)
Record DecoratorClosure : Type := {
  cl_decorator : Value;
  cl_config : Value
}.

Definition makeClosure (rule : Value) : Result DecoratorClosure :=
  match getProp rule "decorator" with
  | Throw e => Throw e
  | Ok decorator =>
      match getProp rule "config" with
      | Throw e => Throw e
      | Ok config => Ok {| cl_decorator := decorator; cl_config := config |}
      end
  end.

(** The call passes two arguments, so the third parameter of the
    plugin's [decorate] is [undefined]. *)
Definition callClosure (c : DecoratorClosure) (message : Value) : M Registry Value :=
  onDecorators
    (invokeDecorate (cl_decorator c) message (jsOr (cl_config c) emptyObject) VUndefined).

Record Decorated (S : Type) : Type := {
  base : TransportStream S;
  closures : list DecoratorClosure
}.
Arguments base {S} _.
Arguments closures {S} _.

Definition decorate {S} (r : Registry) (streamConstructor : TransportStream S)
  : Result (Decorated S) :=
  let identifier := identifier streamConstructor in
  if negb (truthy identifier) then Throw (Error msgNoIdentifier) else
  match getRules r identifier with
  | None => Throw (TypeError "Cannot read properties of undefined (reading 'map')")
  | Some rs =>
      match mapR makeClosure rs with
      | Throw e => Throw e
      | Ok decorators => Ok {| base := streamConstructor; closures := decorators |}
      end
  end.

Definition onRegistry {S A} (m : M Registry A) : M (Registry * S) A :=
  zoom fst (fun r (w : Registry * S) => (r, snd w)) m.

Definition write {S} (d : Decorated S) (args : list Value) : M (Registry * S) Value :=
  let message := arg 0 args in
  let encoding := arg 1 args in
  message <- onRegistry
               (reduce (fun acc decorate => callClosure decorate acc) (closures d) message) ;;
  superCall (base d) "write" [message; encoding] ;;;
  ret VUndefined.

End Lazy.

(** ** EventUtil *)

Module EventUtil.

Definition CRLF : string :=
  String (ascii_of_nat 13) (String (ascii_of_nat 10) EmptyString).

(** [genWrite(socket)]: [string => socket.write(string)]; [socket.write]
    receives one argument. *)
Definition genWrite {W} (socketWrite : list Value -> M W Value)
  : Value -> M W Value :=
  fun string => socketWrite [string].

(** [genSay(socket)]: [string => socket.write(string + '\r\n')]; the
    concatenation converts [string] before [socket.write] is called. *)
Definition genSay {W} (socketWrite : list Value -> M W Value)
  : Value -> M W Value :=
  fun string =>
    text <- liftR (toStringV string) ;;
    socketWrite [VStr (text +:+ CRLF)].

End EventUtil.

(** ** Sample decorators, loaders and streams

    Concrete collaborators on which the definitions above are run. *)

Module Samples.

(** Appends [suffix] to a message that is a string and returns any other
    message as it is; [configure] stores its argument. *)
Definition suffixClass (suffix : string) : DecoratorClass :=
  {| construct := Ok [];
     decorateMethod :=
       Some (fun this message _ _ =>
               (Ok (match message with
                    | VStr text => VStr (text +:+ suffix)
                    | _ => message
                    end), this));
     configureMethod :=
       Some (fun this config => (Ok tt, setField "config" config this)) |}.

(** Reports whether it was handed call options. *)
Definition optionsClass : DecoratorClass :=
  {| construct := Ok [];
     decorateMethod :=
       Some (fun this _ _ options =>
               (Ok (match options with
                    | VUndefined => VStr "no options"
                    | _ => VStr "options"
                    end), this));
     configureMethod := Some (fun this _ => (Ok tt, this)) |}.

(** A class whose instances have no [decorate]. *)
Definition mute : DecoratorClass :=
  {| construct := Ok [];
     decorateMethod := None;
     configureMethod := Some (fun this _ => (Ok tt, this)) |}.

Definition classModule (c : DecoratorClass) : ModuleExports :=
  {| asClass := Some c; exportNamed := fun _ => None |}.

Definition require : Require :=
  fun path =>
    if String.eqb path "suffix-a" then Ok (classModule (suffixClass "a"))
    else if String.eqb path "suffix-b" then Ok (classModule (suffixClass "b"))
    else if String.eqb path "options" then Ok (classModule optionsClass)
    else if String.eqb path "mute" then Ok (classModule mute)
    else Throw (Error ("Cannot find module '" +:+ path +:+ "'")).

Definition requireFn : Require :=
  fun moduleName =>
    if String.eqb moduleName "pack" then
      Ok {| asClass := None;
            exportNamed := fun exportName =>
              if String.eqb exportName "SuffixA" then Some (suffixClass "a")
              else None |}
    else Throw (Error ("Cannot find module '" +:+ moduleName +:+ "'")).

Definition spec (path : string) : Value := VObj [("require", VStr path)].

Definition rule (decorator : string) : Value := VObj [("decorator", VStr decorator)].

(** A stream that records every call of [write] and answers [true]. *)
Definition recorder (identifier : Value) : TransportStream (list (list Value)) :=
  {| identifier := identifier;
     newStream := fun _ => Ok [];
     methods := fun name =>
       if String.eqb name "write" then
         Some (fun args written => (Ok (VBool true), written ++ [args]))
       else if String.eqb name "written" then
         Some (fun _ written => (Ok (VArr (map VArr written)), written))
       else None |}.

(** The recorder as a class with a constructor that does nothing, a
    method [say(m) { return this.write(m) }] and a method
    [written() { ... }] that returns the calls recorded. *)
Definition speaker (identifier : Value) : StreamClass (list (list Value)) :=
  {| stream := recorder identifier;
     constructorBody := fun _ _ => ret VUndefined;
     methodBodies := fun name =>
       if String.eqb name "say" then
         Some (fun thisWrite args => thisWrite [arg 0 args])
       else if String.eqb name "written" then
         Some (fun _ _ w => (Ok (VArr (map VArr (snd w))), w))
       else None |}.

Definition plugins : list (string * Value) :=
  [("a", spec "suffix-a"); ("b", spec "suffix-b"); ("o", spec "options")].

(** The registry after loading [plugins]. *)
Definition loaded : Precompiled.Registry :=
  snd (Precompiled.loadDecorators require requireFn "/srv" plugins
         Precompiled.constructor).

(** The same for the second variant. *)
Definition loadedLazy : Lazy.Registry :=
  snd (Lazy.loadDecorators require requireFn "/srv" plugins Lazy.constructor).

(** The instances that loading [plugins] creates, in order. *)
Definition configured (c : DecoratorClass) (fields : Fields) (config : Value)
  : Instance :=
  {| inst_class := c; inst_fields := fields; inst_configured := [config] |}.

Definition instances : list Instance :=
  [configured (suffixClass "a") [("name", VStr "a"); ("config", emptyObject)] emptyObject;
   configured (suffixClass "b") [("name", VStr "b"); ("config", emptyObject)] emptyObject;
   configured optionsClass [("name", VStr "o")] emptyObject].

(** The number [2]. *)
Definition two : Value := VNum {| num_truthy := true; num_text := "2" |}.

(** A second load that reuses the name ["a"], and its instance. *)
Definition again : list (string * Value) :=
  [("a", VObj [("require", VStr "pack.SuffixA"); ("config", VObj [("level", two)])])].

Definition instancesAgain : list Instance :=
  [configured (suffixClass "a")
     [("name", VStr "a"); ("config", VObj [("level", two)])]
     (VObj [("level", two)])].

(** Rule configurations for the identifier ["console"]. *)
Definition rulesA : list (string * Value) := [("console", VArr [rule "a"])].
Definition rulesAB : list (string * Value) :=
  [("console", VArr [rule "a"; rule "b"])].
Definition rulesOA : list (string * Value) :=
  [("console", VArr [rule "o"; rule "a"])].
Definition rulesO : list (string * Value) := [("console", VArr [rule "o"])].

(** [loaded] after compiling [rulesA], and that registry after a second
    plugin load that stores another class under the name ["a"]. *)
Definition compiledA : Precompiled.Registry :=
  snd (Precompiled.loadRules rulesA loaded).
Definition replacedA : Precompiled.Registry :=
  snd (Precompiled.loadDecorators require requireFn "/srv"
         [("a", spec "suffix-b")] compiledA).

(** The class that [decorate] returns for the recorder in [compiledA]. *)
Definition decoratedConsole : Precompiled.Decorated (list (list Value)) :=
  {| Precompiled.base := recorder (VStr "console");
     Precompiled.decoration :=
       [{| Precompiled.fn_decorator := VStr "a";
           Precompiled.fn_config := VUndefined |}] |}.

End Samples.

(** ** Vocabulary of the statements *)

(** What the rule [rule] asks for on [message]: the [decorate] method of the
    decorator that the registry holds under the rule's decorator name, with
    the rule's config ([{}] when the rule has none) and [options]. *)
Definition applyRule (rule message options : Value) : M Precompiled.Registry Value :=
  decorator <- liftR (getProp rule "decorator") ;;
  config <- liftR (getProp rule "config") ;;
  Precompiled.onDecorators
    (invokeDecorate decorator message (jsOr config emptyObject) options).

(** A rule that passes the validation loop against the decorators [ds]. *)
Definition ValidRule (ds : Decorators) (rule : Value) : Prop :=
  exists decorator,
    getProp rule "decorator" = Ok decorator
    /\ truthy decorator = true
    /\ mapHas ds decorator = true.

(** The closure compiled from a rule holds the rule's [decorator] and
    [config]. *)
Definition CompiledFrom (rule : Value) (f : Precompiled.DecoratorFunction) : Prop :=
  getProp rule "decorator" = Ok (Precompiled.fn_decorator f)
  /\ getProp rule "config" = Ok (Precompiled.fn_config f).

(** A rules value that [loadRules] rejects, with the [decorator] of the
    rule at fault when there is one: the value is not an array, or its
    first rule that fails validation has a falsy (missing or empty)
    decorator name, or a decorator name, a string, that [decorators] does
    not hold. *)
Inductive Offence (ds : Decorators) : Value -> option Value -> Prop :=
| NotAnArray v :
    isArray v = false ->
    Offence ds v None
| NoDecoratorName good rule rest decorator :
    Forall (ValidRule ds) good ->
    getProp rule "decorator" = Ok decorator ->
    truthy decorator = false ->
    Offence ds (VArr (good ++ rule :: rest)) (Some decorator)
| UnknownDecorator good rule rest name :
    Forall (ValidRule ds) good ->
    getProp rule "decorator" = Ok (VStr name) ->
    truthy (VStr name) = true ->
    mapHas ds (VStr name) = false ->
    Offence ds (VArr (good ++ rule :: rest)) (Some (VStr name)).

Section PluginSpecs.
Variables (require requireFn : Require) (rootPath : string).

(** A well-formed plugin spec and the instance it stands for: a plain
    object with no field named [hasOwnProperty], whose [require] is a
    string that resolves to a class; [new] returns an instance with both
    methods, and [configure] returns.  The instance is the new one,
    named and configured once with [settings.config || {}]. *)
Inductive WellFormed : string * Value -> Instance -> Prop :=
| well_formed name fields path c fs cf fs' :
    assoc "hasOwnProperty" fields = None ->
    assoc "require" fields = Some (VStr path) ->
    resolve require requireFn rootPath path = Ok (Some c) ->
    construct c = Ok fs ->
    is_Some (decorateMethod c) ->
    configureMethod c = Some cf ->
    cf (setField "name" (VStr name) fs)
       (jsOr (default VUndefined (assoc "config" fields)) emptyObject) = (Ok tt, fs') ->
    WellFormed (name, VObj fields)
      {| inst_class := c;
         inst_fields := fs';
         inst_configured :=
           [jsOr (default VUndefined (assoc "config" fields)) emptyObject] |}.

(** The failures of a plugin spec: [settings.hasOwnProperty("require")]
    is false, [require] is not a string, or the class has instances that
    lack [decorate] or [configure]. *)
Inductive Failing : string * Value -> Prop :=
| missing_require name settings :
    hasOwnProperty settings "require" = Ok false ->
    Failing (name, settings)
| invalid_require name fields v :
    assoc "hasOwnProperty" fields = None ->
    assoc "require" fields = Some v ->
    isString v = false ->
    Failing (name, VObj fields)
| missing_decorate name fields path c fs :
    assoc "hasOwnProperty" fields = None ->
    assoc "require" fields = Some (VStr path) ->
    resolve require requireFn rootPath path = Ok (Some c) ->
    construct c = Ok fs ->
    decorateMethod c = None ->
    Failing (name, VObj fields)
| missing_configure name fields path c fs :
    assoc "hasOwnProperty" fields = None ->
    assoc "require" fields = Some (VStr path) ->
    resolve require requireFn rootPath path = Ok (Some c) ->
    construct c = Ok fs ->
    is_Some (decorateMethod c) ->
    configureMethod c = None ->
    Failing (name, VObj fields).
End PluginSpecs.

(** The instance has received exactly one [configure] call, whose argument
    was the [config] of [settings], or [{}] when [settings] has none (or a
    falsy one). *)
Definition ConfiguredOnce (settings : Value) (i : Instance) : Prop :=
  exists config,
    getProp settings "config" = Ok config
    /\ inst_configured i = [if truthy config then config else emptyObject].

(** [register specs instances ds]: the map [ds] after storing, in order,
    every instance under the name of its spec. *)
Fixpoint register (specs : list (string * Value)) (instances : list Instance)
    (ds : Decorators) : Decorators :=
  match specs, instances with
  | (name, _) :: specs', i :: instances' => register specs' instances' (<[name := i]> ds)
  | _, _ => ds
  end.

(** ** Vocabulary of the further statements *)

(** What a compiled closure of either variant holds: the decorator name
    and the config of its rule. *)
Definition stepOf (f : Precompiled.DecoratorFunction) : Value * Value :=
  (Precompiled.fn_decorator f, Precompiled.fn_config f).

Definition stepOfClosure (c : Lazy.DecoratorClosure) : Value * Value :=
  (Lazy.cl_decorator c, Lazy.cl_config c).

(** The calls that a list of closures makes on the [decorators] map, with
    [options] as third argument of every [decorate]. *)
Definition runSteps (options : Value) (steps : list (Value * Value)) (message : Value)
  : M Decorators Value :=
  reduce (fun acc step => invokeDecorate step.1 acc (jsOr step.2 emptyObject) options)
         steps message.

(** The closure that the second variant makes from a rule holds the
    rule's [decorator] and [config]. *)
Definition ClosureFrom (rule : Value) (c : Lazy.DecoratorClosure) : Prop :=
  getProp rule "decorator" = Ok (Lazy.cl_decorator c)
  /\ getProp rule "config" = Ok (Lazy.cl_config c).

(** What a rule asks for in the second variant: as [applyRule], with no
    third argument. *)
Definition applyRuleLazy (rule message : Value) : M Lazy.Registry Value :=
  decorator <- liftR (getProp rule "decorator") ;;
  config <- liftR (getProp rule "config") ;;
  Lazy.onDecorators
    (invokeDecorate decorator message (jsOr config emptyObject) VUndefined).

(** A [decorate] method that returns on every call. *)
Definition Returns (g : DecorateFn) : Prop :=
  forall fields message config options,
    exists result fields', g fields message config options = (Ok result, fields').

(** A [decorate] method that does not look at its third argument. *)
Definition IgnoresOptions (g : DecorateFn) : Prop :=
  forall fields message config options options',
    g fields message config options = g fields message config options'.

(** The registries that the methods of the class produce from a new one:
    by [loadDecorators] and [loadRules], however they end, and by running
    a decoration (which is what [write] of a decorated stream does to the
    registry). *)
Inductive Reachable : Precompiled.Registry -> Prop :=
| reach_constructor :
    Reachable Precompiled.constructor
| reach_loadDecorators require requireFn rootPath config r :
    Reachable r ->
    Reachable (snd (Precompiled.loadDecorators require requireFn rootPath config r))
| reach_loadRules config r :
    Reachable r ->
    Reachable (snd (Precompiled.loadRules config r))
| reach_decorateMessage decoration message options r :
    Reachable r ->
    Reachable (snd (Precompiled.decorateMessage decoration message options r)).

(** What every stored instance satisfies: it has both methods and has
    received one [configure] call. *)
Definition Configured (i : Instance) : Prop :=
  is_Some (decorateMethod (inst_class i))
  /\ is_Some (configureMethod (inst_class i))
  /\ length (inst_configured i) = 1.

(** The three maps fit together: every stored instance is [Configured];
    an identifier has rules exactly when it has a decoration; the
    decoration is the one compiled from the rules; and every rule names a
    stored decorator. *)
Record Consistent (r : Precompiled.Registry) : Prop := {
  consistent_instances :
    forall name i, Precompiled.decorators r !! name = Some i -> Configured i;
  consistent_rules :
    forall key rs,
      Precompiled.rules r !! key = Some rs ->
      Forall (ValidRule (Precompiled.decorators r)) rs
      /\ exists fns,
           Precompiled.decorations r !! key = Some fns /\ Forall2 CompiledFrom rs fns;
  consistent_decorations :
    forall key,
      is_Some (Precompiled.decorations r !! key) -> is_Some (Precompiled.rules r !! key)
}.

(** Two maps hold, under the same names, instances of the same classes
    with the same [configure] calls: they differ in the fields of the
    instances at most. *)
Definition UpToFields (ds ds' : Decorators) : Prop :=
  forall name,
    option_Forall2
      (fun i i' => inst_class i = inst_class i'
                   /\ inst_configured i = inst_configured i')
      (ds !! name) (ds' !! name).

(** More sample data. *)
Module Cases.

(** A configuration whose third entry fails, between entries that load. *)
Definition aborting : list (string * Value) :=
  Samples.plugins ++ ("m", Samples.spec "mute") :: Samples.again.

(** Rules whose second identifier is rejected. *)
Definition rejected : list (string * Value) :=
  Samples.rulesA ++ [("file", VArr [Samples.rule "missing"]); ("late", VArr [])].

(** The class that the second variant returns for the recorder when the
    rules of ["console"] are [a, b]. *)
Definition lazyAB : Lazy.Registry :=
  snd (Lazy.loadRules Samples.rulesAB Samples.loadedLazy).

(** A registry of the first variant with the rules [a, b]. *)
Definition compiledAB : Precompiled.Registry :=
  snd (Precompiled.loadRules Samples.rulesAB Samples.loaded).

(** Registries of both variants that hold the two suffix decorators and
    the rules [a, b], and the classes they return for the recorder. *)
Definition suffixes : list (string * Value) :=
  [("a", Samples.spec "suffix-a"); ("b", Samples.spec "suffix-b")].

Definition quiet : Precompiled.Registry :=
  snd (Precompiled.loadRules Samples.rulesAB
         (snd (Precompiled.loadDecorators Samples.require Samples.requireFn "/srv"
                 suffixes Precompiled.constructor))).

Definition quietLazy : Lazy.Registry :=
  snd (Lazy.loadRules Samples.rulesAB
         (snd (Lazy.loadDecorators Samples.require Samples.requireFn "/srv"
                 suffixes Lazy.constructor))).

Definition quietDecorated : Precompiled.Decorated (list (list Value)) :=
  {| Precompiled.base := Samples.recorder (VStr "console");
     Precompiled.decoration :=
       [{| Precompiled.fn_decorator := VStr "a"; Precompiled.fn_config := VUndefined |};
        {| Precompiled.fn_decorator := VStr "b"; Precompiled.fn_config := VUndefined |}] |}.

Definition quietDecoratedLazy : Lazy.Decorated (list (list Value)) :=
  {| Lazy.base := Samples.recorder (VStr "console");
     Lazy.closures :=
       [{| Lazy.cl_decorator := VStr "a"; Lazy.cl_config := VUndefined |};
        {| Lazy.cl_decorator := VStr "b"; Lazy.cl_config := VUndefined |}] |}.

End Cases.

(** * Properties *)

(** ** Loops, strings and maps *)

Section Loops.
Context {St A : Type}.
Implicit Types (body : A -> M St unit) (l : list A) (s : St).

(** A loop over [l1 ++ l2] runs the loop over [l1] and, unless that
    throws, the loop over [l2] from the state reached. *)
Lemma forOf_app body l1 l2 s :
  forOf body (l1 ++ l2) s =
  match forOf body l1 s with
  | (Ok _, s') => forOf body l2 s'
  | (Throw e, s') => (Throw e, s')
  end.
Proof.
  revert s. induction l1 as [|x l1 IH]; intros s; simpl; [done|].
  unfold bind. destruct (body x s) as [[[]|e] s']; [apply IH | done].
Qed.

(** The first iteration that throws ends the loop in the state it left. *)
Lemma forOf_throw body l1 x l2 s s1 s2 e :
  forOf body l1 s = (Ok tt, s1) ->
  body x s1 = (Throw e, s2) ->
  forOf body (l1 ++ x :: l2) s = (Throw e, s2).
Proof.
  intros H1 H2. rewrite forOf_app, H1. simpl. unfold bind. by rewrite H2.
Qed.

(** A state property kept by every iteration is kept by the loop, however
    the loop ends. *)
Lemma forOf_preserves (P : St -> Prop) body l :
  (forall x s, P s -> P (snd (body x s))) ->
  forall s, P s -> P (snd (forOf body l s)).
Proof.
  intros Hbody. induction l as [|x l IH]; intros s Hs; simpl; [done|].
  unfold bind. specialize (Hbody x s Hs).
  destruct (body x s) as [[[]|e] s']; simpl in *; [by apply IH | done].
Qed.
End Loops.

Lemma append_nil_l (s : string) : EmptyString +:+ s = s.
Proof. reflexivity. Qed.

Lemma append_cons (c : ascii) (s t : string) :
  String c s +:+ t = String c (s +:+ t).
Proof. reflexivity. Qed.

Lemma append_nil_r (s : string) : s +:+ EmptyString = s.
Proof. induction s as [|c s IH]; [done|]. by rewrite append_cons, IH. Qed.

Lemma prefix_app (part post : string) : String.prefix part (part +:+ post) = true.
Proof.
  induction part as [|c part IH]; [by destruct post|].
  rewrite append_cons. cbn [String.prefix].
  destruct (Ascii.ascii_dec c c); [done | congruence].
Qed.

Lemma includes_prefix (part s : string) :
  String.prefix part s = true -> includes part s = true.
Proof. intros H. destruct s; cbn [includes]; by rewrite H. Qed.

(** A message built around [part] includes it. *)
Lemma includes_app (pre part post : string) :
  includes part (pre +:+ part +:+ post) = true.
Proof.
  induction pre as [|c pre IH].
  - rewrite append_nil_l. apply includes_prefix, prefix_app.
  - rewrite append_cons. cbn [includes]. rewrite IH. apply orb_true_r.
Qed.

Lemma includes_end (pre part : string) : includes part (pre +:+ part) = true.
Proof.
  rewrite <- (append_nil_r part) at 2. apply includes_app.
Qed.

Lemma includes_self (part post : string) : includes part (part +:+ post) = true.
Proof. apply includes_prefix, prefix_app. Qed.

Lemma includes_refl (part : string) : includes part part = true.
Proof. rewrite <- (append_nil_r part) at 2. apply includes_self. Qed.

Lemma includes_app_r (part pre s : string) :
  includes part s = true -> includes part (pre +:+ s) = true.
Proof.
  intros H. induction pre as [|c pre IH]; [done|].
  rewrite append_cons. cbn [includes]. rewrite IH. apply orb_true_r.
Qed.

(** Finds [part] among the pieces of a concatenation. *)
Ltac find_part :=
  repeat first [apply includes_self | apply includes_refl | apply includes_app_r].

Lemma mapHas_true {A} (m : gmap string A) (k : Value) :
  mapHas m k = true <-> is_Some (mapGet m k).
Proof. unfold mapHas. apply bool_decide_eq_true. Qed.

Lemma mapHas_false {A} (m : gmap string A) (k : Value) :
  mapHas m k = false <-> mapGet m k = None.
Proof.
  unfold mapHas. rewrite bool_decide_eq_false. split.
  - intros H. destruct (mapGet m k) eqn:E; [|done]. destruct H. eauto.
  - intros -> [x Hx]. done.
Qed.

(** ** Accessors *)

(** C9. [getRules] always returns a sequence, never [undefined]: the
    empty sequence for an identifier that has no entry in [rules], and the
    stored sequence for an identifier that has one. *)
Theorem getRules_empty_or_stored (r : Precompiled.Registry) (identifier : Value) :
  Precompiled.getRules r identifier =
  Some (match mapGet (Precompiled.rules r) identifier with
        | Some stored => stored
        | None => []
        end).
Proof.
  unfold Precompiled.getRules.
  destruct (mapHas (Precompiled.rules r) identifier) eqn:E; simpl.
  - apply mapHas_true in E as [rs E]. by rewrite E.
  - apply mapHas_false in E. by rewrite E.
Qed.

(** The second variant has the same accessor. *)
Lemma lazy_variant_getRules (r : Lazy.Registry) (identifier : Value) :
  Lazy.getRules r identifier =
  Some (default [] (mapGet (Lazy.rules r) identifier)).
Proof.
  unfold Lazy.getRules.
  destruct (mapHas (Lazy.rules r) identifier) eqn:E; simpl.
  - apply mapHas_true in E as [rs E]. by rewrite E.
  - apply mapHas_false in E. by rewrite E.
Qed.

(** ** decorate *)

(** C2. [decorate] throws when the identifier of the stream class is
    falsy (absent or empty) and throws when [decorations] holds nothing
    for it (the error carries the text of the identifier, or is the one
    that the conversion of the identifier to text raised); whenever it
    returns, it returns the class that wraps the stream with the
    decoration stored for the identifier. *)
Theorem decorate_requires_identifier_and_decoration
    {S} (r : Precompiled.Registry) (streamConstructor : TransportStream S) :
  match Precompiled.decorate r streamConstructor with
  | Throw e =>
      (truthy (identifier streamConstructor) = false
       /\ e = Error msgNoIdentifier)
      \/ (truthy (identifier streamConstructor) = true
          /\ Precompiled.getDecoration r (identifier streamConstructor) = None
          /\ match toStringV (identifier streamConstructor) with
             | Ok text => e = Error (Precompiled.msgNoDecorations text)
             | Throw e' => e = e'
             end)
  | Ok d =>
      truthy (identifier streamConstructor) = true
      /\ Precompiled.base d = streamConstructor
      /\ Precompiled.getDecoration r (identifier streamConstructor)
         = Some (Precompiled.decoration d)
  end.
Proof.
  unfold Precompiled.decorate.
  destruct (truthy (identifier streamConstructor)) eqn:Hid; simpl.
  - destruct (Precompiled.getDecoration r (identifier streamConstructor)) eqn:Hd;
      simpl; [done|].
    destruct (toStringV (identifier streamConstructor)) eqn:Ht;
      right; done.
  - left; done.
Qed.

(** ** loadRules *)

Section LoadRules.
Import Precompiled.
Implicit Types (r : Registry) (rs : list Value) (config : list (string * Value)).

Local Ltac run := unfold bind, liftR, throw, gets, ret, modify in *; simpl in *.

Lemma getProp_ok_any v k x k' : getProp v k = Ok x -> exists y, getProp v k' = Ok y.
Proof. destruct v; simpl; intros H; try discriminate; eauto. Qed.

(** Validation reads the registry and never writes it. *)
Lemma validateRule_state identifier rule r :
  snd (validateRule identifier rule r) = r.
Proof.
  unfold validateRule. run.
  destruct (getProp rule "decorator") as [d|e]; simpl; [|done].
  destruct (truthy d); simpl; [|done].
  destruct (mapHas (decorators r) d); simpl; [done|].
  by destruct (toStringV d).
Qed.

Lemma validateRule_ok identifier rule r :
  validateRule identifier rule r = (Ok tt, r) <-> ValidRule (decorators r) rule.
Proof.
  unfold validateRule, ValidRule. run. split.
  - destruct (getProp rule "decorator") as [d|e]; simpl; [|done].
    destruct (truthy d) eqn:Ht; simpl; [|done].
    destruct (mapHas (decorators r) d) eqn:Hh; simpl; [eauto|].
    by destruct (toStringV d).
  - intros (d & -> & -> & Hh). simpl. by rewrite Hh.
Qed.

Lemma validateRules_ok identifier rs r :
  forOf (validateRule identifier) rs r = (Ok tt, r)
  <-> Forall (ValidRule (decorators r)) rs.
Proof.
  induction rs as [|rule rs IH]; simpl.
  - split; [constructor | done].
  - unfold bind. pose proof (validateRule_state identifier rule r) as Hs.
    destruct (validateRule identifier rule r) as [[[]|e] r0] eqn:Hv;
      simpl in Hs; subst r0.
    + rewrite IH. apply validateRule_ok in Hv. split.
      * by constructor.
      * by inversion 1.
    + split; [done|]. inversion 1 as [|? ? Hrule]; subst.
      apply (validateRule_ok identifier) in Hrule. congruence.
Qed.

Lemma validateRules_state identifier rs r :
  snd (forOf (validateRule identifier) rs r) = r.
Proof.
  apply (forOf_preserves (fun s => s = r)); [|done].
  intros x s ->. apply validateRule_state.
Qed.

(** Rules that pass validation compile, each to the closure over its own
    [decorator] and [config]. *)
Lemma compile_valid ds rs :
  Forall (ValidRule ds) rs ->
  exists fns, mapR compileRule rs = Ok fns /\ Forall2 CompiledFrom rs fns.
Proof.
  induction 1 as [|rule rs (d & Hd & _) _ (fns & Hfns & Hall)]; simpl.
  - exists []. by split; [|constructor].
  - destruct (getProp_ok_any _ _ _ "config" Hd) as [c Hc].
    assert (compileRule rule = Ok {| fn_decorator := d; fn_config := c |}) as ->
      by (unfold compileRule; by rewrite Hd, Hc).
    rewrite Hfns. eexists. split; [done|]. constructor; [by split | done].
Qed.

(** A rule set that loads is an array of valid rules; its rules and the
    compiled closures are stored under the identifier and nothing else
    changes. *)
Lemma loadRuleSet_ok identifier v r r' :
  loadRuleSet (identifier, v) r = (Ok tt, r') ->
  exists rs fns,
    v = VArr rs
    /\ Forall (ValidRule (decorators r)) rs
    /\ Forall2 CompiledFrom rs fns
    /\ r' = {| decorators := decorators r;
               rules := <[identifier := rs]> (rules r);
               decorations := <[identifier := fns]> (decorations r) |}.
Proof.
  unfold loadRuleSet. destruct v as [| | | | | |rs]; try (by run).
  unfold bind at 1.
  pose proof (validateRules_state identifier rs r) as Hs.
  destruct (forOf (validateRule identifier) rs r) as [[[]|e] r0] eqn:Hv;
    simpl in Hs; subst r0; [|done].
  apply validateRules_ok in Hv.
  destruct (compile_valid _ _ Hv) as (fns & Hfns & Hall).
  run. rewrite Hfns. intros [= <-]. by exists rs, fns.
Qed.

(** A rule set that is rejected leaves the registry as it was. *)
Lemma loadRuleSet_throw identifier v r e r' :
  loadRuleSet (identifier, v) r = (Throw e, r') -> r' = r.
Proof.
  unfold loadRuleSet. destruct v as [| | | | | |rs]; try (run; congruence).
  unfold bind at 1.
  pose proof (validateRules_state identifier rs r) as Hs.
  destruct (forOf (validateRule identifier) rs r) as [[[]|e0] r0] eqn:Hv;
    simpl in Hs; subst r0; [|congruence].
  run. destruct (mapR compileRule rs); congruence.
Qed.

Lemma loadRules_cons entry config r :
  loadRules (entry :: config) r =
  match loadRuleSet entry r with
  | (Ok _, r0) => loadRules config r0
  | (Throw e, r0) => (Throw e, r0)
  end.
Proof. reflexivity. Qed.

(** [loadRules] never touches [decorators], however it ends. *)
Lemma loadRules_decorators config r :
  decorators (snd (loadRules config r)) = decorators r.
Proof.
  apply (forOf_preserves (fun s => decorators s = decorators r)); [|done].
  intros [identifier v] s Hs.
  destruct (loadRuleSet (identifier, v) s) as [[[]|e] s'] eqn:Hl; simpl.
  - apply loadRuleSet_ok in Hl as (? & ? & _ & _ & _ & ->). done.
  - apply loadRuleSet_throw in Hl as ->. done.
Qed.

(** The entries of an identifier that is not a key of [config] are those
    of before the call, however the call ends. *)
Lemma loadRules_other config r identifier :
  identifier ∉ config.*1 ->
  rules (snd (loadRules config r)) !! identifier = rules r !! identifier
  /\ decorations (snd (loadRules config r)) !! identifier
     = decorations r !! identifier.
Proof.
  revert r. induction config as [|[k v] config IH]; intros r Hnot; [done|].
  rewrite fmap_cons, not_elem_of_cons in Hnot. destruct Hnot as [Hk Hnot].
  rewrite loadRules_cons.
  destruct (loadRuleSet (k, v) r) as [[[]|e] r0] eqn:Hl.
  - destruct (IH r0 Hnot) as [-> ->].
    apply loadRuleSet_ok in Hl as (? & ? & _ & _ & _ & ->). simpl in *.
    by rewrite !lookup_insert_ne.
  - apply loadRuleSet_throw in Hl as ->. done.
Qed.

(** After a call that returns, every identifier of [config] holds its
    rules and the closures compiled from them. *)
Lemma loadRules_registered config r r' identifier rs :
  loadRules config r = (Ok tt, r') ->
  NoDup config.*1 ->
  (identifier, VArr rs) ∈ config ->
  exists fns,
    rules r' !! identifier = Some rs
    /\ decorations r' !! identifier = Some fns
    /\ Forall2 CompiledFrom rs fns.
Proof.
  revert r. induction config as [|[k v] config IH]; intros r Hload Hnodup Hin.
  - by apply elem_of_nil in Hin.
  - rewrite fmap_cons in Hnodup. apply NoDup_cons in Hnodup as [Hk Hnodup].
    rewrite loadRules_cons in Hload.
    destruct (loadRuleSet (k, v) r) as [[[]|e] r0] eqn:Hl; [|done].
    apply elem_of_cons in Hin as [[= <- <-]|Hin].
    + destruct (loadRules_other config r0 identifier Hk) as [Hr Hd].
      rewrite Hload in Hr, Hd. simpl in Hr, Hd.
      apply loadRuleSet_ok in Hl as (rs' & fns & [= <-] & _ & Hall & ->).
      simpl in *. rewrite lookup_insert_eq in Hr. rewrite lookup_insert_eq in Hd.
      eauto.
    + by apply (IH r0).
Qed.
End LoadRules.

(** ** The compiled decoration *)

Section Decoration.
Import Precompiled.
Implicit Types (r rc : Registry) (rs : list Value) (config : list (string * Value)).

(** A compiled closure does what its rule asks for, in the registry of
    the time of the call. *)
Lemma callDecoratorFunction_applyRule rule f message options rc :
  CompiledFrom rule f ->
  callDecoratorFunction f message options rc = applyRule rule message options rc.
Proof.
  intros [Hd Hc]. unfold applyRule, callDecoratorFunction, bind, liftR.
  by rewrite Hd, Hc.
Qed.

(** For any rule list: the decoration compiled from [rs] threads the
    message through the rules of [rs] from first to last. *)
Lemma decorateMessage_reduce rs fns message options rc :
  Forall2 CompiledFrom rs fns ->
  decorateMessage fns message options rc =
  reduce (fun acc rule => applyRule rule acc (defaultArg options emptyObject))
         rs message rc.
Proof.
  unfold decorateMessage. intros Hall. revert message rc.
  induction Hall as [|rule f rs fns Hf _ IH]; intros message rc; simpl; [done|].
  unfold bind. rewrite (callDecoratorFunction_applyRule rule f) by done.
  destruct (applyRule rule message _ rc) as [[m'|e] rc']; [apply IH | done].
Qed.

Lemma bind_ret_r {St A} (m : M St A) s : (x <- m ;; ret x) s = m s.
Proof. unfold bind, ret. by destruct (m s) as [[a|e] s']. Qed.

(** C1 (amended).  For an identifier whose rules [A, B] loaded, the
    stored decoration applied to [message] and [options] is rule [A]
    applied to the original message followed by rule [B] applied to the
    result of [A], each with the decorator registered under the rule's
    name, the rule's config ([{}] when it has none), and the call options,
    which are replaced by [{}] when they are [undefined]. *)
Theorem decorateMessage_left_to_right config r r' identifier A B :
  loadRules config r = (Ok tt, r') ->
  NoDup config.*1 ->
  (identifier, VArr [A; B]) ∈ config ->
  exists decoration,
    getDecoration r' (VStr identifier) = Some decoration
    /\ forall message options rc,
         decorateMessage decoration message options rc =
         (first <- applyRule A message (defaultArg options emptyObject) ;;
          applyRule B first (defaultArg options emptyObject)) rc.
Proof.
  intros Hload Hnodup Hin.
  destruct (loadRules_registered _ _ _ _ _ Hload Hnodup Hin) as (fns & _ & Hd & Hall).
  exists fns. split; [done|]. intros message options rc.
  rewrite (decorateMessage_reduce [A; B]) by done. simpl. unfold bind at 1 3.
  destruct (applyRule A message _ rc) as [[m'|e] rc']; [|done].
  apply bind_ret_r.
Qed.

Lemma decorateMessage_left_to_right_witness :
  loadRules Samples.rulesAB Samples.loaded
  = (Ok tt, snd (loadRules Samples.rulesAB Samples.loaded))
  /\ NoDup Samples.rulesAB.*1
  /\ ("console", VArr [Samples.rule "a"; Samples.rule "b"]) ∈ Samples.rulesAB
  /\ exists decoration,
       getDecoration (snd (loadRules Samples.rulesAB Samples.loaded)) (VStr "console")
       = Some decoration
       /\ forall message options rc,
            decorateMessage decoration message options rc =
            (first <- applyRule (Samples.rule "a") message
                        (defaultArg options emptyObject) ;;
             applyRule (Samples.rule "b") first (defaultArg options emptyObject)) rc.
Proof.
  assert (loadRules Samples.rulesAB Samples.loaded
          = (Ok tt, snd (loadRules Samples.rulesAB Samples.loaded))) as Hload
    by (vm_compute; reflexivity).
  assert (NoDup Samples.rulesAB.*1) as Hnodup by apply NoDup_singleton.
  assert (("console", VArr [Samples.rule "a"; Samples.rule "b"]) ∈ Samples.rulesAB)
    as Hin by (apply list_elem_of_singleton; reflexivity).
  split; [exact Hload|]. split; [exact Hnodup|]. split; [exact Hin|].
  exact (decorateMessage_left_to_right _ _ _ _ _ _ Hload Hnodup Hin).
Defined.

(** C1, with the call options handed on as they are: for rules [o, a],
    the message "hi" and options [undefined] (a write that passes none),
    the stored decoration hands [{}] to the decorators and returns
    "optionsa", where the two rules applied with [undefined] return
    "no optionsa". *)
Lemma decorateMessage_undefined_options_differ :
  fst (loadRules Samples.rulesOA Samples.loaded) = Ok tt
  /\ exists decoration,
       getDecoration (snd (loadRules Samples.rulesOA Samples.loaded)) (VStr "console")
       = Some decoration
       /\ fst (decorateMessage decoration (VStr "hi") VUndefined
                (snd (loadRules Samples.rulesOA Samples.loaded)))
          = Ok (VStr "optionsa")
       /\ fst ((first <- applyRule (Samples.rule "o") (VStr "hi") VUndefined ;;
                applyRule (Samples.rule "a") first VUndefined)
               (snd (loadRules Samples.rulesOA Samples.loaded)))
          = Ok (VStr "no optionsa")
       /\ fst (decorateMessage decoration (VStr "hi") VUndefined
                (snd (loadRules Samples.rulesOA Samples.loaded)))
          <> fst ((first <- applyRule (Samples.rule "o") (VStr "hi") VUndefined ;;
                   applyRule (Samples.rule "a") first VUndefined)
                  (snd (loadRules Samples.rulesOA Samples.loaded))).
Proof.
  split; [by vm_compute|].
  eexists. split; [by vm_compute|].
  split; [by vm_compute|]. split; [by vm_compute|].
  vm_compute. discriminate.
Qed.

Lemma onDecorators_decorations {A} (m : M Decorators A) r :
  decorations (snd (onDecorators m r)) = decorations r
  /\ rules (snd (onDecorators m r)) = rules r.
Proof.
  unfold onDecorators, zoom. by destruct (m (decorators r)).
Qed.

(** C3 (amended).  For an identifier whose rules loaded, every step of
    the stored decoration holds the decorator name and the config of its
    rule; a later plugin load leaves the stored decoration as it is; and
    a step calls the instance that [decorators] holds under its name at
    the time of the call, with the config it holds. *)
Theorem compiled_step_binds_name_and_config config r r1 identifier rs :
  loadRules config r = (Ok tt, r1) ->
  NoDup config.*1 ->
  (identifier, VArr rs) ∈ config ->
  exists decoration,
    getDecoration r1 (VStr identifier) = Some decoration
    /\ Forall2 CompiledFrom rs decoration
    /\ (forall require requireFn rootPath specs,
          getDecoration
            (snd (loadDecorators require requireFn rootPath specs r1))
            (VStr identifier) = Some decoration)
    /\ (forall f name i decorateFn message options rc,
          f ∈ decoration ->
          fn_decorator f = VStr name ->
          decorators rc !! name = Some i ->
          decorateMethod (inst_class i) = Some decorateFn ->
          fst (callDecoratorFunction f message options rc)
          = fst (decorateFn (inst_fields i) message
                   (jsOr (fn_config f) emptyObject) options)).
Proof.
  intros Hload Hnodup Hin.
  destruct (loadRules_registered _ _ _ _ _ Hload Hnodup Hin) as (fns & _ & Hd & Hall).
  exists fns. repeat split; [done | done | |].
  - intros. unfold getDecoration, loadDecorators. simpl.
    by rewrite (proj1 (onDecorators_decorations _ _)).
  - intros f name i decorateFn message options rc _ Hname Hi Hfn.
    unfold callDecoratorFunction, onDecorators, zoom, invokeDecorate.
    rewrite Hname, Hi, Hfn.
    by destruct (decorateFn _ _ _ _).
Qed.

Lemma compiled_step_binds_name_and_config_witness :
  loadRules Samples.rulesA Samples.loaded = (Ok tt, Samples.compiledA)
  /\ NoDup Samples.rulesA.*1
  /\ ("console", VArr [Samples.rule "a"]) ∈ Samples.rulesA
  /\ exists decoration,
       getDecoration Samples.compiledA (VStr "console") = Some decoration
       /\ Forall2 CompiledFrom [Samples.rule "a"] decoration
       /\ (forall require requireFn rootPath specs,
             getDecoration
               (snd (loadDecorators require requireFn rootPath specs Samples.compiledA))
               (VStr "console") = Some decoration)
       /\ (forall f name i decorateFn message options rc,
             f ∈ decoration ->
             fn_decorator f = VStr name ->
             decorators rc !! name = Some i ->
             decorateMethod (inst_class i) = Some decorateFn ->
             fst (callDecoratorFunction f message options rc)
             = fst (decorateFn (inst_fields i) message
                      (jsOr (fn_config f) emptyObject) options)).
Proof.
  assert (loadRules Samples.rulesA Samples.loaded = (Ok tt, Samples.compiledA))
    as Hload by (vm_compute; reflexivity).
  assert (NoDup Samples.rulesA.*1) as Hnodup by apply NoDup_singleton.
  assert (("console", VArr [Samples.rule "a"]) ∈ Samples.rulesA)
    as Hin by (apply list_elem_of_singleton; reflexivity).
  split; [exact Hload|]. split; [exact Hnodup|]. split; [exact Hin|].
  exact (compiled_step_binds_name_and_config _ _ _ _ _ Hload Hnodup Hin).
Defined.

(** C3, with the plugin bound at compile time: after another class is
    stored under the name ["a"], the decoration compiled before, which is
    still the one stored, returns "hib" where it returned "hia". *)
Lemma replaced_decorator_changes_decoration :
  exists decoration,
    getDecoration Samples.compiledA (VStr "console") = Some decoration
    /\ getDecoration Samples.replacedA (VStr "console") = Some decoration
    /\ fst (decorateMessage decoration (VStr "hi") emptyObject Samples.compiledA)
       = Ok (VStr "hia")
    /\ fst (decorateMessage decoration (VStr "hi") emptyObject Samples.replacedA)
       = Ok (VStr "hib")
    /\ fst (decorateMessage decoration (VStr "hi") emptyObject Samples.compiledA)
       <> fst (decorateMessage decoration (VStr "hi") emptyObject Samples.replacedA).
Proof.
  eexists. split; [by vm_compute|]. split; [by vm_compute|].
  split; [by vm_compute|]. split; [by vm_compute|].
  vm_compute. discriminate.
Qed.
End Decoration.

(** ** The decorated stream class *)

Section DecoratedStream.
Import Precompiled.
Context {S : Type}.
Implicit Types (r rc : Registry) (sc : TransportStream S) (d : Decorated S).

Lemma decorate_ok r sc d :
  decorate r sc = Ok d ->
  truthy (identifier sc) = true
  /\ base d = sc
  /\ getDecoration r (identifier sc) = Some (decoration d).
Proof.
  unfold decorate. destruct (truthy (identifier sc)); simpl; [|done].
  destruct (getDecoration r (identifier sc)); [|by destruct (toStringV _)].
  by intros [= <-].
Qed.

(** What [write] of the returned class does, for any arguments. *)
Lemma write_unfold d args rc s :
  write d args (rc, s) =
  match decorateMessage (decoration d) (arg 0 args) (arg 1 args) rc with
  | (Throw e, rc') => (Throw e, (rc', s))
  | (Ok message, rc') =>
      match methods (base d) "write" with
      | None =>
          (Throw (TypeError "(intermediate value).write is not a function"), (rc', s))
      | Some original =>
          match original [message; arg 1 args] s with
          | (Ok _, s') => (Ok VUndefined, (rc', s'))
          | (Throw e, s') => (Throw e, (rc', s'))
          end
      end
  end.
Proof.
  unfold write, onRegistry, superCall, zoom, bind, throw, ret. simpl.
  destruct (decorateMessage _ _ _ rc) as [[message|e] rc']; simpl; [|done].
  destruct (methods (base d) "write") as [original|]; simpl; [|done].
  by destruct (original _ s) as [[v|e] s'].
Qed.

(** C5.  The class returned by [decorate] has the
    identifier of the stream class.  Its [write] runs the message through
    the decoration stored for the identifier and, if that returns, calls
    the original [write] with the decorated message and the options it
    was given, unchanged; the stream state is then what the original
    [write] left.  The constructor and every other method are those of
    the stream class, run with the returned class's [write] as
    [this.write]; the ones whose code does not depend on [this.write]
    behave as on the stream class itself. *)
Theorem decorated_class_overrides_write_only (c : StreamClass S) r d :
  decorate r (stream c) = Ok d ->
  identifierOf d = identifier (stream c)
  /\ (exists decoration,
        getDecoration r (identifier (stream c)) = Some decoration
        /\ forall original args rc s,
             methods (stream c) "write" = Some original ->
             callDecorated c d "write" args (rc, s) =
             match decorateMessage decoration (arg 0 args) (arg 1 args) rc with
             | (Throw e, rc') => (Throw e, (rc', s))
             | (Ok message, rc') =>
                 match original [message; arg 1 args] s with
                 | (Ok _, s') => (Ok VUndefined, (rc', s'))
                 | (Throw e, s') => (Throw e, (rc', s'))
                 end
             end)
  /\ (forall args w,
        newDecorated c d args w
        = constructorBody c (callDecorated c d "write") args w)
  /\ (forall name body args w,
        name <> "write" ->
        methodBodies c name = Some body ->
        callDecorated c d name args w = body (callDecorated c d "write") args w)
  /\ (forall name args w,
        name <> "write" ->
        methodBodies c name = None ->
        fst (callDecorated c d name args w) = fst (callOriginal c name args w)
        /\ snd (callDecorated c d name args w) = w)
  /\ ((forall thisWrite thisWrite' args w,
         constructorBody c thisWrite args w = constructorBody c thisWrite' args w) ->
      forall args w, newDecorated c d args w = newOriginal c args w)
  /\ forall name body,
       name <> "write" ->
       methodBodies c name = Some body ->
       (forall thisWrite thisWrite' args w,
          body thisWrite args w = body thisWrite' args w) ->
       forall args w, callDecorated c d name args w = callOriginal c name args w.
Proof.
  intros Hd. destruct (decorate_ok _ _ _ Hd) as (_ & Hbase & Hdec).
  split; [unfold identifierOf; by rewrite Hbase|].
  split.
  { exists (decoration d). split; [done|].
    intros original args rc s Horig.
    unfold callDecorated, callWith. simpl.
    rewrite write_unfold, Hbase, Horig. done. }
  split; [done|].
  split.
  { intros name body args w Hname Hbody. apply String.eqb_neq in Hname.
    unfold callDecorated, callWith. by rewrite Hname, Hbody. }
  split.
  { intros name args w Hname Hbody. apply String.eqb_neq in Hname.
    unfold callDecorated, callOriginal, callWith. by rewrite Hname, Hbody. }
  split.
  { intros Hfree args w. unfold newDecorated, newOriginal, newWith. apply Hfree. }
  intros name body Hname Hbody Hfree args w. apply String.eqb_neq in Hname.
  unfold callDecorated, callOriginal, callWith. rewrite Hname, Hbody. apply Hfree.
Qed.

(** The decoration compiled from no rules returns the message. *)
Lemma decorateMessage_nil message options rc :
  decorateMessage [] message options rc = (Ok message, rc).
Proof. reflexivity. Qed.

(** C10.  [loadRules] accepts an empty rule array: the call returns, a
    decoration is stored for the identifier, that decoration returns
    every message unchanged and leaves the registry alone, and a stream
    class with that (non-empty) identifier is decorated; its [write] hands
    the original message and options to the original [write]. *)
Theorem empty_rules_decorate_nothing (key : string) r :
  key <> EmptyString ->
  exists r' decoration,
    loadRules [(key, VArr [])] r = (Ok tt, r')
    /\ getDecoration r' (VStr key) = Some decoration
    /\ (forall message options rc,
          decorateMessage decoration message options rc = (Ok message, rc))
    /\ forall sc,
         identifier sc = VStr key ->
         exists d,
           decorate r' sc = Ok d
           /\ forall original args rc s,
                methods sc "write" = Some original ->
                write d args (rc, s) =
                match original [arg 0 args; arg 1 args] s with
                | (Ok _, s') => (Ok VUndefined, (rc, s'))
                | (Throw e, s') => (Throw e, (rc, s'))
                end.
Proof.
  intros Hkey.
  assert (truthy (VStr key) = true) as Htruthy.
  { simpl. destruct (String.eqb_spec key EmptyString); [done | done]. }
  eexists _, []. split; [reflexivity|]. simpl.
  split; [unfold getDecoration; simpl; apply lookup_insert_eq|].
  split; [done|].
  intros sc Hsc. unfold decorate. rewrite Hsc, Htruthy. simpl.
  unfold getDecoration. simpl. rewrite lookup_insert_eq.
  eexists. split; [done|].
  intros original args rc s Horig. rewrite write_unfold. simpl. by rewrite Horig.
Qed.

End DecoratedStream.

Lemma decorated_class_overrides_write_only_witness :
  Precompiled.decorate Samples.compiledA (stream (Samples.speaker (VStr "console")))
  = Ok Samples.decoratedConsole
  /\ Precompiled.identifierOf Samples.decoratedConsole
     = identifier (stream (Samples.speaker (VStr "console")))
  /\ (exists decoration,
        Precompiled.getDecoration Samples.compiledA
          (identifier (stream (Samples.speaker (VStr "console")))) = Some decoration
        /\ forall original args rc s,
             methods (stream (Samples.speaker (VStr "console"))) "write"
             = Some original ->
             callDecorated (Samples.speaker (VStr "console")) Samples.decoratedConsole
               "write" args (rc, s) =
             match Precompiled.decorateMessage decoration (arg 0 args) (arg 1 args) rc
             with
             | (Throw e, rc') => (Throw e, (rc', s))
             | (Ok message, rc') =>
                 match original [message; arg 1 args] s with
                 | (Ok _, s') => (Ok VUndefined, (rc', s'))
                 | (Throw e, s') => (Throw e, (rc', s'))
                 end
             end)
  /\ (forall args w,
        newDecorated (Samples.speaker (VStr "console")) Samples.decoratedConsole args w
        = constructorBody (Samples.speaker (VStr "console"))
            (callDecorated (Samples.speaker (VStr "console")) Samples.decoratedConsole
               "write") args w)
  /\ (forall name body args w,
        name <> "write" ->
        methodBodies (Samples.speaker (VStr "console")) name = Some body ->
        callDecorated (Samples.speaker (VStr "console")) Samples.decoratedConsole
          name args w
        = body (callDecorated (Samples.speaker (VStr "console"))
                  Samples.decoratedConsole "write") args w)
  /\ (forall name args w,
        name <> "write" ->
        methodBodies (Samples.speaker (VStr "console")) name = None ->
        fst (callDecorated (Samples.speaker (VStr "console")) Samples.decoratedConsole
               name args w)
        = fst (callOriginal (Samples.speaker (VStr "console")) name args w)
        /\ snd (callDecorated (Samples.speaker (VStr "console"))
                  Samples.decoratedConsole name args w) = w)
  /\ ((forall thisWrite thisWrite' args w,
         constructorBody (Samples.speaker (VStr "console")) thisWrite args w
         = constructorBody (Samples.speaker (VStr "console")) thisWrite' args w) ->
      forall args w,
        newDecorated (Samples.speaker (VStr "console")) Samples.decoratedConsole args w
        = newOriginal (Samples.speaker (VStr "console")) args w)
  /\ (forall name body,
       name <> "write" ->
       methodBodies (Samples.speaker (VStr "console")) name = Some body ->
       (forall thisWrite thisWrite' args w,
          body thisWrite args w = body thisWrite' args w) ->
       forall args w,
         callDecorated (Samples.speaker (VStr "console")) Samples.decoratedConsole
           name args w
         = callOriginal (Samples.speaker (VStr "console")) name args w)
  /\ forall args w,
       callDecorated (Samples.speaker (VStr "console")) Samples.decoratedConsole
         "written" args w
       = callOriginal (Samples.speaker (VStr "console")) "written" args w.
Proof.
  assert (Precompiled.decorate Samples.compiledA
            (stream (Samples.speaker (VStr "console")))
          = Ok Samples.decoratedConsole) as H by (vm_compute; reflexivity).
  pose proof (decorated_class_overrides_write_only _ _ _ H) as Hall.
  split; [exact H|]. split; [exact (proj1 Hall)|].
  split; [exact (proj1 (proj2 Hall))|].
  split; [exact (proj1 (proj2 (proj2 Hall)))|].
  split; [exact (proj1 (proj2 (proj2 (proj2 Hall))))|].
  split; [exact (proj1 (proj2 (proj2 (proj2 (proj2 Hall)))))|].
  split; [exact (proj1 (proj2 (proj2 (proj2 (proj2 (proj2 Hall))))))|].
  split; [exact (proj2 (proj2 (proj2 (proj2 (proj2 (proj2 Hall))))))|].
  refine (proj2 (proj2 (proj2 (proj2 (proj2 (proj2 Hall))))) "written" _ _ _ _).
  - discriminate.
  - reflexivity.
  - reflexivity.
Defined.

(** C5, for a method that calls [this.write]:
    [say(m) { return this.write(m) }] of the recorder writes "hi" on an
    instance of the recorder and "hia" on an instance of the class that
    [decorate] returned for it, so a method other than [write] does not
    behave as on the original. *)
Lemma inherited_method_reaches_decorated_write :
  Precompiled.decorate Samples.compiledA (stream (Samples.speaker (VStr "console")))
  = Ok Samples.decoratedConsole
  /\ snd (snd (callOriginal (Samples.speaker (VStr "console")) "say" [VStr "hi"]
                 (Samples.compiledA, [])))
     = [[VStr "hi"]]
  /\ snd (snd (callDecorated (Samples.speaker (VStr "console"))
                 Samples.decoratedConsole "say" [VStr "hi"] (Samples.compiledA, [])))
     = [[VStr "hia"; VUndefined]]
  /\ snd (snd (callDecorated (Samples.speaker (VStr "console"))
                 Samples.decoratedConsole "say" [VStr "hi"] (Samples.compiledA, [])))
     <> snd (snd (callOriginal (Samples.speaker (VStr "console")) "say" [VStr "hi"]
                    (Samples.compiledA, []))).
Proof.
  split; [by vm_compute|]. split; [by vm_compute|]. split; [by vm_compute|].
  vm_compute. discriminate.
Qed.

Lemma empty_rules_decorate_nothing_witness :
  "console" <> EmptyString
  /\ exists r' decoration,
       Precompiled.loadRules [("console", VArr [])] Samples.loaded = (Ok tt, r')
       /\ Precompiled.getDecoration r' (VStr "console") = Some decoration
       /\ (forall message options rc,
             Precompiled.decorateMessage decoration message options rc
             = (Ok message, rc))
       /\ forall sc : TransportStream (list (list Value)),
            identifier sc = VStr "console" ->
            exists d,
              Precompiled.decorate r' sc = Ok d
              /\ forall original args rc s,
                   methods sc "write" = Some original ->
                   Precompiled.write d args (rc, s) =
                   match original [arg 0 args; arg 1 args] s with
                   | (Ok _, s') => (Ok VUndefined, (rc, s'))
                   | (Throw e, s') => (Throw e, (rc, s'))
                   end.
Proof.
  assert ("console" <> EmptyString) as H by discriminate.
  split; [exact H|].
  exact (empty_rules_decorate_nothing "console" Samples.loaded H).
Defined.

(** ** loadDecorators *)

Section LoadDecorators.
Variables (require requireFn : Require) (rootPath : string).
Implicit Types (ds : Decorators) (specs : list (string * Value))
  (instances : list Instance).

Local Abbreviation WellFormed := (WellFormed require requireFn rootPath).
Local Abbreviation Failing := (Failing require requireFn rootPath).
Local Abbreviation loadOne := (loadDecorator require requireFn rootPath).
Local Abbreviation loadInto := (loadDecoratorsInto require requireFn rootPath).

(** A well-formed spec stores its instance under its name. *)
Lemma loadDecorator_well_formed entry i ds :
  WellFormed entry i -> loadOne entry ds = (Ok tt, <[entry.1 := i]> ds).
Proof.
  intros [name fields path c fs cf fs' Hown Hreq Hres Hnew [df Hdec] Hconf Hcall].
  unfold loadDecorator, bind, liftR, throw, modify, sourceConfigOf. simpl.
  rewrite Hown, Hreq. simpl. rewrite Hres. simpl. rewrite Hnew. simpl.
  unfold hasDecorate, hasConfigure. simpl. rewrite Hdec, Hconf. simpl.
  unfold configure. simpl. rewrite Hconf, Hcall. done.
Qed.

Lemma loadDecoratorsInto_cons entry specs ds :
  loadInto (entry :: specs) ds =
  match loadOne entry ds with
  | (Ok _, ds') => loadInto specs ds'
  | (Throw e, ds') => (Throw e, ds')
  end.
Proof. reflexivity. Qed.

Lemma loadDecorators_well_formed specs instances ds :
  Forall2 WellFormed specs instances ->
  loadInto specs ds = (Ok tt, register specs instances ds).
Proof.
  intros Hall. revert ds.
  induction Hall as [|[name settings] i specs instances Hwf _ IH]; intros ds; [done|].
  rewrite loadDecoratorsInto_cons, (loadDecorator_well_formed _ i) by done.
  apply IH.
Qed.

Lemma register_other specs instances ds name :
  name ∉ specs.*1 -> register specs instances ds !! name = ds !! name.
Proof.
  revert instances ds.
  induction specs as [|[k v] specs IH]; intros instances ds Hnot; [done|].
  rewrite fmap_cons, not_elem_of_cons in Hnot. destruct Hnot as [Hk Hnot].
  destruct instances as [|i instances]; [done|]. simpl.
  rewrite IH by done. by apply lookup_insert_ne.
Qed.

Lemma register_lookup specs instances ds k name settings i :
  NoDup specs.*1 ->
  specs !! k = Some (name, settings) ->
  instances !! k = Some i ->
  register specs instances ds !! name = Some i.
Proof.
  revert instances ds k.
  induction specs as [|[n0 s0] specs IH]; intros instances ds k Hnodup Hs Hi; [done|].
  rewrite fmap_cons in Hnodup. apply NoDup_cons in Hnodup as [Hn0 Hnodup].
  destruct instances as [|i0 instances]; [done|].
  destruct k as [|k]; simpl in *.
  - injection Hs as -> ->. injection Hi as ->.
    rewrite register_other by done. apply lookup_insert_eq.
  - by apply (IH _ _ k).
Qed.

Lemma well_formed_configured_once name settings i :
  WellFormed (name, settings) i -> ConfiguredOnce settings i.
Proof.
  inversion 1; subst. eexists. split; [reflexivity|]. done.
Qed.

(** Each failure throws an error whose message includes the name of the
    plugin, and stores nothing. *)
Lemma loadDecorator_failing entry ds :
  Failing entry ->
  exists e,
    loadOne entry ds = (Throw e, ds)
    /\ includes entry.1 (messageOf e) = true.
Proof.
  intros [name settings Hown
         |name fields v Hshadow Hreq Hv
         |name fields path c fs Hshadow Hreq Hres Hnew Hdec
         |name fields path c fs Hshadow Hreq Hres Hnew [df Hdec] Hconf];
    unfold loadDecorator, bind, liftR, throw, modify, sourceConfigOf; simpl.
  - rewrite Hown. simpl. eexists. split; [done|].
    apply (includes_app "TransportDecorator [" name).
  - rewrite Hshadow, Hreq. simpl.
    destruct v; try discriminate; simpl;
      (eexists; split; [done|]; apply (includes_app "TransportDecorator [" name)).
  - rewrite Hshadow, Hreq. simpl. rewrite Hres. simpl. rewrite Hnew. simpl.
    unfold hasDecorate. simpl. rewrite Hdec. simpl.
    eexists. split; [done|]. apply (includes_app "TransportDecorator " name).
  - rewrite Hshadow, Hreq. simpl. rewrite Hres. simpl. rewrite Hnew. simpl.
    unfold hasDecorate, hasConfigure. simpl. rewrite Hdec, Hconf. simpl.
    eexists. split; [done|]. apply (includes_app "TransportDecorator " name).
Qed.

Import Precompiled.


End LoadDecorators.

Lemma plugins_well_formed :
  Forall2 (WellFormed Samples.require Samples.requireFn "/srv")
          Samples.plugins Samples.instances.
Proof.
  repeat constructor.
  - by refine (well_formed _ _ _ "a" [("require", VStr "suffix-a")] "suffix-a"
                 (Samples.suffixClass "a") [] _ _ _ _ _ _ _ _ _).
  - by refine (well_formed _ _ _ "b" [("require", VStr "suffix-b")] "suffix-b"
                 (Samples.suffixClass "b") [] _ _ _ _ _ _ _ _ _).
  - by refine (well_formed _ _ _ "o" [("require", VStr "options")] "options"
                 Samples.optionsClass [] _ _ _ _ _ _ _ _ _).
Defined.

Lemma again_well_formed :
  Forall2 (WellFormed Samples.require Samples.requireFn "/srv")
          Samples.again Samples.instancesAgain.
Proof.
  repeat constructor.
  by refine (well_formed _ _ _ "a"
               [("require", VStr "pack.SuffixA"); ("config", VObj [("level", Samples.two)])]
               "pack.SuffixA" (Samples.suffixClass "a") [] _ _ _ _ _ _ _ _ _).
Defined.

Lemma mute_failing :
  Failing Samples.require Samples.requireFn "/srv" ("m", Samples.spec "mute").
Proof.
  by refine (missing_decorate _ _ _ "m" [("require", VStr "mute")] "mute"
               Samples.mute [] _ _ _ _ _).
Defined.



(** ** Rejected rules *)

Section Rejection.
Import Precompiled.
Implicit Types (r : Registry) (config : list (string * Value)).

Lemma includes_empty (s : string) : includes EmptyString s = true.
Proof. by destruct s. Qed.

Lemma falsy_name (name : string) : truthy (VStr name) = false -> name = EmptyString.
Proof. simpl. by destruct (String.eqb_spec name EmptyString). Qed.

(** An offending rules value makes its iteration throw, with a message
    that includes the identifier and the decorator name of the rule at
    fault, when that rule has one; the registry stays as it was. *)
Lemma loadRuleSet_offence key v named r :
  Offence (decorators r) v named ->
  exists e,
    loadRuleSet (key, v) r = (Throw e, r)
    /\ includes key (messageOf e) = true
    /\ (forall name,
          named = Some (VStr name) -> includes name (messageOf e) = true).
Proof.
  intros [v' Harr
         |good rule rest decorator Hgood Hd Hfalsy
         |good rule rest unknown Hgood Hd Htruthy Hunknown].
  - exists (Error (msgNotArray key)). split; [by destruct v'|].
    split; [unfold msgNotArray; cbn [messageOf]; find_part | done].
  - exists (Error (msgNoDecorator key)). split.
    + unfold loadRuleSet. unfold bind at 1.
      rewrite (forOf_throw _ good rule rest r r r (Error (msgNoDecorator key)));
        [done | by apply validateRules_ok |].
      unfold validateRule, bind, liftR, throw. by rewrite Hd, Hfalsy.
    + split; [unfold msgNoDecorator; cbn [messageOf]; find_part |].
      intros name [= ->]. rewrite (falsy_name name Hfalsy). apply includes_empty.
  - exists (Error (msgNonExistent key unknown)). split.
    + unfold loadRuleSet. unfold bind at 1.
      rewrite (forOf_throw _ good rule rest r r r
                 (Error (msgNonExistent key unknown)));
        [done | by apply validateRules_ok |].
      unfold validateRule, bind, liftR, throw, gets. rewrite Hd, Htruthy. simpl.
      by rewrite Hunknown.
    + split; [unfold msgNonExistent; cbn [messageOf]; find_part|].
      intros name [= ->]. unfold msgNonExistent. cbn [messageOf]. find_part.
Qed.

(** C4.  When the entries before it load, an entry whose rules value is
    not an array, or holds a rule with a missing or empty decorator name,
    or holds a rule whose decorator name is not registered, makes
    [loadRules] throw.  The message of the error includes the identifier
    and the decorator name of the rule at fault (which says something for
    a name that is not registered: an empty name is included in any
    message, and a missing name is no name).  What the registry holds for
    the identifier, rules and decoration, is what it held before the
    call. *)
Theorem loadRules_rejects_offending_rules pre key v post r r1 named :
  NoDup (pre ++ (key, v) :: post).*1 ->
  loadRules pre r = (Ok tt, r1) ->
  Offence (decorators r) v named ->
  exists e,
    loadRules (pre ++ (key, v) :: post) r = (Throw e, r1)
    /\ includes key (messageOf e) = true
    /\ (forall name,
          named = Some (VStr name) -> includes name (messageOf e) = true)
    /\ getRules r1 (VStr key) = getRules r (VStr key)
    /\ getDecoration r1 (VStr key) = getDecoration r (VStr key).
Proof.
  intros Hnodup Hpre Hoff.
  assert (key ∉ pre.*1) as Hkey.
  { rewrite fmap_app, fmap_cons in Hnodup. apply NoDup_app in Hnodup as (_ & Hn & _).
    intros Hin. apply (Hn _ Hin). simpl. apply list_elem_of_here. }
  pose proof (loadRules_decorators pre r) as Hds.
  destruct (loadRules_other pre r key Hkey) as [Hr Hd].
  rewrite Hpre in Hds, Hr, Hd. simpl in Hds, Hr, Hd.
  rewrite <- Hds in Hoff.
  destruct (loadRuleSet_offence key v named r1 Hoff) as (e & He & Hid & Hname).
  exists e. split; [exact (forOf_throw _ pre _ post r r1 r1 e Hpre He)|].
  split; [done|]. split; [done|].
  unfold getRules, getDecoration, mapHas. simpl. by rewrite Hr, Hd.
Qed.
End Rejection.

Lemma loadRules_rejects_offending_rules_witness :
  NoDup (Samples.rulesA ++ [("file", VArr [Samples.rule "a"; Samples.rule "missing"])]).*1
  /\ Precompiled.loadRules Samples.rulesA Samples.loaded = (Ok tt, Samples.compiledA)
  /\ Offence (Precompiled.decorators Samples.loaded)
       (VArr ([Samples.rule "a"] ++ Samples.rule "missing" :: []))
       (Some (VStr "missing"))
  /\ exists e,
       Precompiled.loadRules
         (Samples.rulesA ++ [("file", VArr [Samples.rule "a"; Samples.rule "missing"])])
         Samples.loaded = (Throw e, Samples.compiledA)
       /\ includes "file" (messageOf e) = true
       /\ (forall name,
             Some (VStr "missing") = Some (VStr name) ->
             includes name (messageOf e) = true)
       /\ Precompiled.getRules Samples.compiledA (VStr "file")
          = Precompiled.getRules Samples.loaded (VStr "file")
       /\ Precompiled.getDecoration Samples.compiledA (VStr "file")
          = Precompiled.getDecoration Samples.loaded (VStr "file").
Proof.
  assert (NoDup (Samples.rulesA
                 ++ [("file", VArr [Samples.rule "a"; Samples.rule "missing"])]).*1)
    as H1 by (apply (bool_decide_unpack _); vm_compute; exact I).
  assert (Precompiled.loadRules Samples.rulesA Samples.loaded
          = (Ok tt, Samples.compiledA)) as H2 by (vm_compute; reflexivity).
  assert (Offence (Precompiled.decorators Samples.loaded)
            (VArr ([Samples.rule "a"] ++ Samples.rule "missing" :: []))
            (Some (VStr "missing"))) as H3.
  { apply (UnknownDecorator _ [Samples.rule "a"] (Samples.rule "missing") []
             "missing").
    - constructor; [|constructor]. exists (VStr "a"). repeat split; by vm_compute.
    - reflexivity.
    - reflexivity.
    - by vm_compute. }
  split; [exact H1|]. split; [exact H2|]. split; [exact H3|].
  exact (loadRules_rejects_offending_rules
           Samples.rulesA "file" _ [] Samples.loaded Samples.compiledA _ H1 H2 H3).
Defined.

(** The three rejections on the sample registry, with their messages. *)
Example loadRules_rejections_sample :
  fst (Precompiled.loadRules [("console", VObj [])] Samples.loaded)
  = Throw (Error (msgNotArray "console"))
  /\ fst (Precompiled.loadRules [("console", VArr [VObj [("config", emptyObject)]])]
           Samples.loaded)
     = Throw (Error (msgNoDecorator "console"))
  /\ fst (Precompiled.loadRules [("console", VArr [Samples.rule "missing"])]
           Samples.loaded)
     = Throw (Error (msgNonExistent "console" "missing"))
  /\ Precompiled.getDecoration
       (snd (Precompiled.loadRules [("console", VArr [Samples.rule "missing"])]
               Samples.loaded)) (VStr "console") = None.
Proof. repeat split; by vm_compute. Qed.

(** ** Sample runs *)

(** The conversion to text of an array, of a number and of an object with
    a field [toString]. *)
Example toStringV_sample :
  toStringV (VArr [VStr "a"; VNull; VArr [VBool true; VUndefined]; emptyObject])
  = Ok "a,,true,,[object Object]"
  /\ toStringV (VNum {| num_truthy := true; num_text := "1e+21" |}) = Ok "1e+21"
  /\ toStringV (VObj [("toString", Samples.two)])
     = Throw (TypeError "Cannot convert object to primitive value")
  /\ toStringV (VArr [VStr "a"; VObj [("toString", Samples.two)]])
     = Throw (TypeError "Cannot convert object to primitive value").
Proof. repeat split; reflexivity. Qed.

(** A spec with a field [hasOwnProperty] makes the first test of the loop
    throw, whether or not it has a [require]; nothing is stored. *)
Example loadDecorators_hidden_hasOwnProperty :
  Precompiled.loadDecorators Samples.require Samples.requireFn "/srv"
    [("a", VObj [("hasOwnProperty", Samples.two); ("require", VStr "suffix-a")])]
    Precompiled.constructor
  = (Throw (TypeError "settings.hasOwnProperty is not a function"),
     Precompiled.constructor)
  /\ Precompiled.loadDecorators Samples.require Samples.requireFn "/srv"
       [("a", VObj [("hasOwnProperty", Samples.two)])] Precompiled.constructor
     = (Throw (TypeError "settings.hasOwnProperty is not a function"),
        Precompiled.constructor).
Proof. split; reflexivity. Qed.

(** A rule whose decorator has no text: the message of the rejection
    cannot be made and the conversion's exception is the one thrown. *)
Example loadRules_decorator_without_text :
  fst (Precompiled.loadRules
         [("console", VArr [VObj [("decorator", VObj [("toString", Samples.two)])]])]
         Samples.loaded)
  = Throw (TypeError "Cannot convert object to primitive value").
Proof. by vm_compute. Qed.

(** After a load that returns, [getRules] gives every identifier of the
    configuration its rules. *)
Lemma getRules_after_loadRules config r r' key rs :
  Precompiled.loadRules config r = (Ok tt, r') ->
  NoDup config.*1 ->
  (key, VArr rs) ∈ config ->
  Precompiled.getRules r' (VStr key) = Some rs.
Proof.
  intros Hload Hnodup Hin.
  destruct (loadRules_registered _ _ _ _ _ Hload Hnodup Hin) as (fns & Hr & _).
  unfold Precompiled.getRules, mapHas. simpl. by rewrite Hr.
Qed.

(** Rules [a, b] on the message "hi": the suffix of [a] comes first. *)
Example decorateMessage_order_sample :
  match Precompiled.getDecoration
          (snd (Precompiled.loadRules Samples.rulesAB Samples.loaded)) (VStr "console")
  with
  | Some decoration =>
      fst (Precompiled.decorateMessage decoration (VStr "hi") emptyObject
             (snd (Precompiled.loadRules Samples.rulesAB Samples.loaded)))
      = Ok (VStr "hiab")
  | None => False
  end.
Proof. by vm_compute. Qed.

(** A write through [genWrite] passes one argument: the decorator is
    handed [{}] as options and the original [write] is handed
    [undefined]. *)
Example genWrite_passes_no_options :
  match Precompiled.decorate
          (snd (Precompiled.loadRules Samples.rulesO Samples.loaded))
          (Samples.recorder (VStr "console"))
  with
  | Ok d =>
      snd (snd (EventUtil.genWrite (Precompiled.write d) (VStr "hi")
                  (snd (Precompiled.loadRules Samples.rulesO Samples.loaded), [])))
      = [[VStr "options"; VUndefined]]
  | Throw _ => False
  end.
Proof. by vm_compute. Qed.

(** [genSay] appends the line end before the decoration runs. *)
Example genSay_sample :
  snd (snd (EventUtil.genSay (Precompiled.write Samples.decoratedConsole) (VStr "hi")
              (Samples.compiledA, [])))
  = [[VStr ("hi" +:+ EventUtil.CRLF +:+ "a"); VUndefined]].
Proof. by vm_compute. Qed.

(** ** The two variants *)

(** C8.  The two variants of the registry differ in what a decorated
    stream writes: there are plugin specs, rules, a stream class and a
    [write] call for which both variants load the plugins and the rules and
    decorate the stream class, and the stream decorated by the first
    variant is left in another state than the one decorated by the second.
    (The first variant hands the call options, or [{}], to the decorator;
    the second hands it no third argument.) *)
Theorem variants_diverge_on_write :
  exists (require requireFn : Require) (rootPath : string)
         (plugins rulesConfig : list (string * Value))
         (stream : TransportStream (list (list Value))) (args : list Value),
  exists r1 d1 r2 d2,
    (Precompiled.loadDecorators require requireFn rootPath plugins ;;;
     Precompiled.loadRules rulesConfig) Precompiled.constructor = (Ok tt, r1)
    /\ Precompiled.decorate r1 stream = Ok d1
    /\ (Lazy.loadDecorators require requireFn rootPath plugins ;;;
        Lazy.loadRules rulesConfig) Lazy.constructor = (Ok tt, r2)
    /\ Lazy.decorate r2 stream = Ok d2
    /\ snd (snd (Precompiled.write d1 args (r1, [])))
       = [[VStr "options"; emptyObject]]
    /\ snd (snd (Lazy.write d2 args (r2, [])))
       = [[VStr "no options"; emptyObject]]
    /\ snd (snd (Precompiled.write d1 args (r1, [])))
       <> snd (snd (Lazy.write d2 args (r2, []))).
Proof.
  exists Samples.require, Samples.requireFn, "/srv", Samples.plugins, Samples.rulesO,
         (Samples.recorder (VStr "console")), [VStr "hi"; emptyObject].
  eexists _, _, _, _.
  split; [vm_compute; reflexivity|]. split; [vm_compute; reflexivity|].
  split; [vm_compute; reflexivity|]. split; [vm_compute; reflexivity|].
  split; [vm_compute; reflexivity|]. split; [vm_compute; reflexivity|].
  vm_compute. discriminate.
Qed.

(** The variants also differ before any write: for an identifier without
    rules the first variant refuses to decorate and the second returns a
    class whose [write] passes the message on. *)
Lemma variants_diverge_without_rules :
  isOk (Precompiled.decorate Samples.loaded (Samples.recorder (VStr "console"))) = false
  /\ isOk (Lazy.decorate Samples.loadedLazy (Samples.recorder (VStr "console"))) = true.
Proof. split; by vm_compute. Qed.

(** * Further properties *)

(** ** Loads that throw *)

(** A loop that throws did so at some element, after the loop over the
    elements before it returned. *)
Lemma forOf_throw_inv {St A} (body : A -> M St unit) l s e s' :
  forOf body l s = (Throw e, s') ->
  exists pre x post s1,
    l = pre ++ x :: post
    /\ forOf body pre s = (Ok tt, s1)
    /\ body x s1 = (Throw e, s').
Proof.
  revert s. induction l as [|x l IH]; intros s; simpl; [done|].
  unfold bind. destruct (body x s) as [[[]|e0] s0] eqn:Hx.
  - intros Hl. destruct (IH _ Hl) as (pre & y & post & s1 & -> & Hpre & Hy).
    exists (x :: pre), y, post, s1. split; [done|]. split; [|done].
    simpl. unfold bind. by rewrite Hx.
  - intros [= -> ->]. by exists [], x, l, s.
Qed.

Lemma forOf_singleton {St A} (body : A -> M St unit) x s :
  forOf body [x] s = body x s.
Proof. simpl. unfold bind, ret. by destruct (body x s) as [[[]|e] s0]. Qed.

Section LoadOutcomes.
Variables (require requireFn : Require) (rootPath : string).
Implicit Types (ds : Decorators) (specs : list (string * Value)).

Local Abbreviation loadOne := (loadDecorator require requireFn rootPath).
Local Abbreviation loadInto := (loadDecoratorsInto require requireFn rootPath).

Lemma new_fresh decorator i :
  new decorator = Ok i -> inst_configured i = [].
Proof.
  unfold new. destruct decorator as [c|]; [|done].
  destruct (construct c); [|done]. by intros [= <-].
Qed.

Lemma configure_ok i config i' :
  configure i config = Ok i' ->
  inst_class i' = inst_class i
  /\ inst_configured i' = inst_configured i ++ [config].
Proof.
  unfold configure. destruct (configureMethod (inst_class i)) as [f|]; [|done].
  destruct (f (inst_fields i) config) as [[[]|e] fs]; [|done]. by intros [= <-].
Qed.

(** An iteration of the loop either throws and stores nothing, or stores
    under the name of the entry a new instance that has both methods and
    one [configure] call. *)
Lemma loadDecorator_outcome entry ds :
  (exists e, loadOne entry ds = (Throw e, ds))
  \/ (exists i, loadOne entry ds = (Ok tt, <[entry.1 := i]> ds) /\ Configured i).
Proof.
  destruct entry as [name settings].
  unfold loadDecorator, bind, liftR, throw, modify.
  destruct (hasOwnProperty settings "require") as [[]|e]; simpl; [|eauto..].
  destruct (getProp settings "require") as [req|e]; simpl; [|eauto].
  destruct req; simpl; eauto.
  destruct (sourceConfigOf settings) as [sourceConfig|e]; simpl; [|eauto].
  destruct (resolve require requireFn rootPath s) as [decorator|e]; simpl; [|eauto].
  destruct (new decorator) as [instance|e] eqn:Hnew; simpl; [|eauto].
  destruct (hasDecorate instance) eqn:Hd; simpl; [|eauto].
  destruct (hasConfigure instance) eqn:Hc; simpl; [|eauto].
  destruct (configure (setName name instance) sourceConfig) as [i|e] eqn:Hconf;
    simpl; [|eauto].
  right. exists i. split; [done|].
  apply configure_ok in Hconf as [Hclass Hlog]. simpl in Hclass, Hlog.
  apply new_fresh in Hnew. rewrite Hnew in Hlog.
  unfold Configured. rewrite Hclass, Hlog.
  apply bool_decide_eq_true in Hd. apply bool_decide_eq_true in Hc. done.
Qed.

Lemma loadDecorator_throw entry ds e ds' :
  loadOne entry ds = (Throw e, ds') -> ds' = ds.
Proof.
  destruct (loadDecorator_outcome entry ds) as [[e0 H]|(i & H & _)];
    rewrite H; congruence.
Qed.

(** The names a load that returns has stored are those of its
    configuration, and the other names keep their instances. *)
Lemma loadDecoratorsInto_ok specs ds ds' :
  loadInto specs ds = (Ok tt, ds') ->
  dom ds' = dom ds ∪ list_to_set specs.*1
  /\ forall name, name ∉ specs.*1 -> ds' !! name = ds !! name.
Proof.
  revert ds. induction specs as [|entry specs IH]; intros ds.
  - intros [= <-]. split; [simpl; by rewrite union_empty_r_L | done].
  - rewrite loadDecoratorsInto_cons.
    destruct (loadDecorator_outcome entry ds) as [[e H]|(i & H & _)];
      rewrite H; [done|].
    intros Hrest. destruct (IH _ Hrest) as [Hdom Hother]. split.
    + rewrite Hdom, dom_insert_L, fmap_cons. simpl.
      by rewrite (comm_L (∪) {[entry.1]}), (assoc_L (∪)).
    + intros name Hname. rewrite fmap_cons, not_elem_of_cons in Hname.
      destruct Hname as [Hne Hname]. rewrite Hother by done.
      by apply lookup_insert_ne.
Qed.

(** X1.  When [loadDecorators] throws, the configuration splits at the
    entry that threw: the registry is the one that loading the entries
    before it leaves, the entry itself stored nothing (whatever made it
    throw, the loader, the constructor and [configure] included), and the
    entries after it were not looked at. *)
Theorem loadDecorators_throw_keeps_prefix config (r r' : Precompiled.Registry) e :
  Precompiled.loadDecorators require requireFn rootPath config r = (Throw e, r') ->
  exists pre entry post,
    config = pre ++ entry :: post
    /\ Precompiled.loadDecorators require requireFn rootPath pre r = (Ok tt, r')
    /\ Precompiled.loadDecorators require requireFn rootPath [entry] r' = (Throw e, r').
Proof.
  unfold Precompiled.loadDecorators, Precompiled.onDecorators, zoom.
  destruct (loadInto config (Precompiled.decorators r)) as [res ds'] eqn:Hload.
  intros [= -> <-].
  destruct (forOf_throw_inv _ _ _ _ _ Hload) as (pre & entry & post & ds1 & -> & Hpre & He).
  pose proof (loadDecorator_throw _ _ _ _ He) as ->.
  exists pre, entry, post. split; [done|].
  unfold loadDecoratorsInto. rewrite Hpre. split; [done|]. simpl Precompiled.decorators.
  by rewrite forOf_singleton, He.
Qed.

(** X3.  A [loadDecorators] that returns has stored an instance under
    every name of its configuration and under no other name: the names of
    [decorators] are the former ones and those of the configuration, every
    other name keeps its instance, and [rules] and [decorations] are
    untouched. *)
Theorem loadDecorators_stores_its_names config (r r' : Precompiled.Registry) :
  Precompiled.loadDecorators require requireFn rootPath config r = (Ok tt, r') ->
  dom (Precompiled.decorators r')
  = dom (Precompiled.decorators r) ∪ list_to_set config.*1
  /\ (forall name,
        name ∉ config.*1 ->
        Precompiled.getDecorator r' (VStr name) = Precompiled.getDecorator r (VStr name))
  /\ Precompiled.rules r' = Precompiled.rules r
  /\ Precompiled.decorations r' = Precompiled.decorations r.
Proof.
  unfold Precompiled.loadDecorators, Precompiled.onDecorators, zoom.
  destruct (loadInto config (Precompiled.decorators r)) as [res ds'] eqn:Hload.
  intros [= -> <-]. destruct (loadDecoratorsInto_ok _ _ _ Hload) as [Hdom Hother].
  done.
Qed.
End LoadOutcomes.

Lemma loadDecorators_throw_keeps_prefix_witness :
  Precompiled.loadDecorators Samples.require Samples.requireFn "/srv"
    Cases.aborting Precompiled.constructor
  = (Throw (Error (msgNoDecorate "m")), Samples.loaded)
  /\ exists pre entry post,
       Cases.aborting = pre ++ entry :: post
       /\ Precompiled.loadDecorators Samples.require Samples.requireFn "/srv"
            pre Precompiled.constructor = (Ok tt, Samples.loaded)
       /\ Precompiled.loadDecorators Samples.require Samples.requireFn "/srv"
            [entry] Samples.loaded
          = (Throw (Error (msgNoDecorate "m")), Samples.loaded).
Proof.
  assert (Precompiled.loadDecorators Samples.require Samples.requireFn "/srv"
            Cases.aborting Precompiled.constructor
          = (Throw (Error (msgNoDecorate "m")), Samples.loaded)) as H
    by (vm_compute; reflexivity).
  split; [exact H|].
  exact (loadDecorators_throw_keeps_prefix _ _ _ _ _ _ _ H).
Defined.

Lemma loadDecorators_stores_its_names_witness :
  Precompiled.loadDecorators Samples.require Samples.requireFn "/srv"
    Samples.plugins Precompiled.constructor = (Ok tt, Samples.loaded)
  /\ dom (Precompiled.decorators Samples.loaded)
     = dom (Precompiled.decorators Precompiled.constructor)
       ∪ list_to_set Samples.plugins.*1
  /\ (forall name,
        name ∉ Samples.plugins.*1 ->
        Precompiled.getDecorator Samples.loaded (VStr name)
        = Precompiled.getDecorator Precompiled.constructor (VStr name))
  /\ Precompiled.rules Samples.loaded = Precompiled.rules Precompiled.constructor
  /\ Precompiled.decorations Samples.loaded
     = Precompiled.decorations Precompiled.constructor.
Proof.
  assert (Precompiled.loadDecorators Samples.require Samples.requireFn "/srv"
            Samples.plugins Precompiled.constructor = (Ok tt, Samples.loaded)) as H
    by (vm_compute; reflexivity).
  split; [exact H|].
  exact (loadDecorators_stores_its_names _ _ _ _ _ _ H).
Defined.

(** ** Rule loads *)

Section RuleLoads.
Import Precompiled.
Implicit Types (r : Registry) (config : list (string * Value)).

Lemma union_singleton_shift (k : string) (X L : gset string) :
  {[k]} ∪ X ∪ L = X ∪ ({[k]} ∪ L).
Proof. by rewrite (comm_L (∪) {[k]} X), (assoc_L (∪)). Qed.

(** A [loadRules] that returns was given arrays only; the identifiers of
    [rules] and of [decorations] are the former ones and those of the
    configuration. *)
Lemma loadRules_ok_domains config r r' :
  loadRules config r = (Ok tt, r') ->
  Forall (fun entry => isArray entry.2 = true) config
  /\ dom (rules r') = dom (rules r) ∪ list_to_set config.*1
  /\ dom (decorations r') = dom (decorations r) ∪ list_to_set config.*1.
Proof.
  revert r. induction config as [|[key v] config IH]; intros r.
  - intros [= <-]. simpl. by rewrite !union_empty_r_L.
  - rewrite loadRules_cons.
    destruct (loadRuleSet (key, v) r) as [[[]|e] r0] eqn:Hl; [|done].
    intros Hrest. destruct (IH _ Hrest) as (Harr & Hr & Hd).
    apply loadRuleSet_ok in Hl as (rs & fns & -> & _ & _ & ->). simpl in Hr, Hd.
    split; [by constructor|]. rewrite Hr, Hd, !dom_insert_L, fmap_cons. simpl.
    by rewrite !union_singleton_shift.
Qed.

(** X2.  When [loadRules] throws, the configuration splits at the entry
    that threw: the registry is the one that loading the entries before it
    leaves, so their identifiers have their rules and decorations, the
    entry itself stored nothing, and the entries after it were not looked
    at. *)
Theorem loadRules_throw_keeps_prefix config r r' e :
  loadRules config r = (Throw e, r') ->
  exists pre entry post,
    config = pre ++ entry :: post
    /\ loadRules pre r = (Ok tt, r')
    /\ loadRules [entry] r' = (Throw e, r')
    /\ forall key,
         key ∈ pre.*1 ->
         is_Some (rules r' !! key) /\ is_Some (getDecoration r' (VStr key)).
Proof.
  intros Hload.
  destruct (forOf_throw_inv _ _ _ _ _ Hload)
    as (pre & [key v] & post & r1 & -> & Hpre & He).
  pose proof (loadRuleSet_throw _ _ _ _ _ He) as ->.
  exists pre, (key, v), post. split; [done|]. split; [done|]. split.
  - unfold loadRules. by rewrite forOf_singleton.
  - intros k Hk. destruct (loadRules_ok_domains _ _ _ Hpre) as (_ & Hr & Hd).
    unfold getDecoration. simpl. rewrite <- !elem_of_dom, Hr, Hd.
    split; apply elem_of_union_r; by apply elem_of_list_to_set.
Qed.

(** X4.  A [loadRules] that returns was given an array for every
    identifier; it has stored rules and a decoration for every identifier
    of the configuration and for no other, and [decorators] is
    untouched. *)
Theorem loadRules_stores_its_identifiers config r r' :
  loadRules config r = (Ok tt, r') ->
  Forall (fun entry => isArray entry.2 = true) config
  /\ dom (rules r') = dom (rules r) ∪ list_to_set config.*1
  /\ dom (decorations r') = dom (decorations r) ∪ list_to_set config.*1
  /\ decorators r' = decorators r.
Proof.
  intros Hload. destruct (loadRules_ok_domains _ _ _ Hload) as (Harr & Hr & Hd).
  pose proof (loadRules_decorators config r) as Hds. rewrite Hload in Hds.
  done.
Qed.
End RuleLoads.

Lemma loadRules_throw_keeps_prefix_witness :
  Precompiled.loadRules Cases.rejected Samples.loaded
  = (Throw (Error (msgNonExistent "file" "missing")), Samples.compiledA)
  /\ exists pre entry post,
       Cases.rejected = pre ++ entry :: post
       /\ Precompiled.loadRules pre Samples.loaded = (Ok tt, Samples.compiledA)
       /\ Precompiled.loadRules [entry] Samples.compiledA
          = (Throw (Error (msgNonExistent "file" "missing")), Samples.compiledA)
       /\ forall key,
            key ∈ pre.*1 ->
            is_Some (Precompiled.rules Samples.compiledA !! key)
            /\ is_Some (Precompiled.getDecoration Samples.compiledA (VStr key)).
Proof.
  assert (Precompiled.loadRules Cases.rejected Samples.loaded
          = (Throw (Error (msgNonExistent "file" "missing")), Samples.compiledA))
    as H by (vm_compute; reflexivity).
  split; [exact H|].
  exact (loadRules_throw_keeps_prefix _ _ _ _ H).
Defined.

Lemma loadRules_stores_its_identifiers_witness :
  Precompiled.loadRules Samples.rulesAB Samples.loaded = (Ok tt, Cases.compiledAB)
  /\ Forall (fun entry => isArray entry.2 = true) Samples.rulesAB
  /\ dom (Precompiled.rules Cases.compiledAB)
     = dom (Precompiled.rules Samples.loaded) ∪ list_to_set Samples.rulesAB.*1
  /\ dom (Precompiled.decorations Cases.compiledAB)
     = dom (Precompiled.decorations Samples.loaded) ∪ list_to_set Samples.rulesAB.*1
  /\ Precompiled.decorators Cases.compiledAB = Precompiled.decorators Samples.loaded.
Proof.
  assert (Precompiled.loadRules Samples.rulesAB Samples.loaded
          = (Ok tt, Cases.compiledAB)) as H by (vm_compute; reflexivity).
  split; [exact H|].
  exact (loadRules_stores_its_identifiers _ _ _ H).
Defined.

(** ** Running a decoration *)

Section Running.
Import Precompiled.
Implicit Types (r rc : Registry) (ds : Decorators) (steps : list (Value * Value)).

Lemma reduce_app {St A B} (f : B -> A -> M St B) l1 l2 init s :
  reduce f (l1 ++ l2) init s = (acc <- reduce f l1 init ;; reduce f l2 acc) s.
Proof.
  revert init s. induction l1 as [|x l1 IH]; intros init s; simpl; [reflexivity|].
  unfold bind in *. destruct (f init x s) as [[acc|e] s0]; [|done].
  apply IH.
Qed.

(** A decoration of the first variant acts on [decorators] only, by the
    calls of its steps. *)
Lemma reduce_runSteps fns options message r :
  reduce (fun acc decorator => callDecoratorFunction decorator acc options) fns message r
  = onDecorators (runSteps options (stepOf <$> fns) message) r.
Proof.
  revert message r. induction fns as [|f fns IH]; intros message r;
    [by destruct r|].
  simpl. unfold bind at 1. unfold callDecoratorFunction at 1.
  unfold onDecorators, zoom, runSteps. simpl. unfold bind.
  destruct (invokeDecorate _ message _ options (decorators r)) as [[acc|e] ds0]; [|done].
  rewrite IH. reflexivity.
Qed.

Lemma decorateMessage_runSteps fns message options r :
  decorateMessage fns message options r
  = onDecorators (runSteps (defaultArg options emptyObject) (stepOf <$> fns) message) r.
Proof. apply reduce_runSteps. Qed.

Lemma upToFields_refl ds : UpToFields ds ds.
Proof. intros name. destruct (ds !! name); by constructor. Qed.

Lemma upToFields_trans ds1 ds2 ds3 :
  UpToFields ds1 ds2 -> UpToFields ds2 ds3 -> UpToFields ds1 ds3.
Proof.
  intros H12 H23 name. specialize (H12 name). specialize (H23 name).
  destruct H12 as [i1 i2 [Hc Hl]|]; inversion H23 as [? i3 [Hc' Hl']|]; subst;
    constructor. split; congruence.
Qed.

Lemma upToFields_dom ds ds' : UpToFields ds ds' -> dom ds = dom ds'.
Proof.
  intros H. apply set_eq. intros name. rewrite !elem_of_dom.
  specialize (H name). destruct H; split; intros [? ?]; done || eauto.
Qed.

Lemma upToFields_mapHas ds ds' k :
  UpToFields ds ds' -> mapHas ds k = mapHas ds' k.
Proof.
  intros H. unfold mapHas, mapGet. destruct k; try done.
  specialize (H s). apply bool_decide_ext.
  destruct H; split; intros [? ?]; done || eauto.
Qed.

(** A [decorate] call changes the fields of the instance it runs on and
    nothing else in the map. *)
Lemma invokeDecorate_upToFields decorator message config options ds :
  UpToFields ds (snd (invokeDecorate decorator message config options ds)).
Proof.
  unfold invokeDecorate. destruct decorator; try apply upToFields_refl.
  destruct (ds !! s) as [i|] eqn:Hi; [|apply upToFields_refl].
  destruct (decorateMethod (inst_class i)) as [f|]; [|apply upToFields_refl].
  destruct (f _ _ _ _) as [res fs]. simpl. intros name.
  destruct (decide (s = name)) as [<-|Hne].
  - rewrite Hi, lookup_insert_eq. by constructor.
  - rewrite lookup_insert_ne by done. apply upToFields_refl.
Qed.

Lemma runSteps_upToFields options steps message ds :
  UpToFields ds (snd (runSteps options steps message ds)).
Proof.
  revert message ds. induction steps as [|step steps IH]; intros message ds.
  - apply upToFields_refl.
  - unfold runSteps. simpl. unfold bind.
    pose proof (invokeDecorate_upToFields step.1 message
                  (jsOr step.2 emptyObject) options ds) as H.
    destruct (invokeDecorate _ _ _ _ ds) as [[acc|e] ds0]; simpl in *; [|done].
    eapply upToFields_trans; [exact H | apply IH].
Qed.

(** X7.  The decoration compiled from two rule lists in a row is the
    decoration of the first list followed, on its result, by the
    decoration of the second; when the first throws, the second does not
    run. *)
Theorem decorateMessage_app fns1 fns2 message options rc :
  decorateMessage (fns1 ++ fns2) message options rc
  = (first <- decorateMessage fns1 message options ;;
     decorateMessage fns2 first options) rc.
Proof.
  unfold decorateMessage. rewrite reduce_app. unfold bind.
  destruct (reduce _ fns1 message rc) as [[first|e] rc0]; [|done].
  by destruct options.
Qed.

(** X8.  What [write] of a decorated stream returns, what it leaves in
    the stream and in [decorators] depends on the registry through
    [decorators] only, and it leaves [rules] and [decorations] as they
    are: rules loaded after [decorate] are not consulted and the write
    changes none. *)
Theorem write_reads_decorators_only {S} (d : Decorated S) args rc rc' (s : S) :
  decorators rc = decorators rc' ->
  fst (write d args (rc, s)) = fst (write d args (rc', s))
  /\ snd (snd (write d args (rc, s))) = snd (snd (write d args (rc', s)))
  /\ decorators (fst (snd (write d args (rc, s))))
     = decorators (fst (snd (write d args (rc', s))))
  /\ rules (fst (snd (write d args (rc, s)))) = rules rc
  /\ decorations (fst (snd (write d args (rc, s)))) = decorations rc.
Proof.
  intros Hds. rewrite !write_unfold, !decorateMessage_runSteps.
  unfold onDecorators, zoom. rewrite <- Hds.
  destruct (runSteps _ _ _ (decorators rc)) as [[message|e] ds0]; simpl; [|done].
  destruct (methods (base d) "write") as [original|]; simpl; [|done].
  by destruct (original _ s) as [[v|e] s0].
Qed.
End Running.

Lemma write_reads_decorators_only_witness :
  Precompiled.decorators Cases.compiledAB = Precompiled.decorators Samples.loaded
  /\ fst (Precompiled.write Samples.decoratedConsole [VStr "hi"] (Cases.compiledAB, []))
     = fst (Precompiled.write Samples.decoratedConsole [VStr "hi"] (Samples.loaded, []))
  /\ snd (snd (Precompiled.write Samples.decoratedConsole [VStr "hi"]
                 (Cases.compiledAB, [])))
     = snd (snd (Precompiled.write Samples.decoratedConsole [VStr "hi"]
                   (Samples.loaded, [])))
  /\ Precompiled.decorators
       (fst (snd (Precompiled.write Samples.decoratedConsole [VStr "hi"]
                    (Cases.compiledAB, []))))
     = Precompiled.decorators
         (fst (snd (Precompiled.write Samples.decoratedConsole [VStr "hi"]
                      (Samples.loaded, []))))
  /\ Precompiled.rules
       (fst (snd (Precompiled.write Samples.decoratedConsole [VStr "hi"]
                    (Cases.compiledAB, []))))
     = Precompiled.rules Cases.compiledAB
  /\ Precompiled.decorations
       (fst (snd (Precompiled.write Samples.decoratedConsole [VStr "hi"]
                    (Cases.compiledAB, []))))
     = Precompiled.decorations Cases.compiledAB.
Proof.
  assert (Precompiled.decorators Cases.compiledAB
          = Precompiled.decorators Samples.loaded) as H by (vm_compute; reflexivity).
  split; [exact H|].
  exact (write_reads_decorators_only Samples.decoratedConsole [VStr "hi"] _ _ [] H).
Defined.

(** ** The registry invariant *)

Section Invariant.
Import Precompiled.
Implicit Types (r : Registry) (ds : Decorators).

Lemma validRule_mono ds ds' rule :
  dom ds ⊆ dom ds' -> ValidRule ds rule -> ValidRule ds' rule.
Proof.
  intros Hsub (d & Hd & Ht & Hh). exists d. split; [done|]. split; [done|].
  apply mapHas_true. apply mapHas_true in Hh. destruct d; try by destruct Hh.
  simpl in *. apply elem_of_dom, Hsub, elem_of_dom, Hh.
Qed.

(** Replacing [decorators] by a map of configured instances with at least
    the same names keeps the registry consistent. *)
Lemma consistent_setDecorators r ds' :
  Consistent r ->
  (forall name i, ds' !! name = Some i -> Configured i) ->
  dom (decorators r) ⊆ dom ds' ->
  Consistent (setDecorators ds' r).
Proof.
  intros [Hi Hr Hd] Hi' Hsub. split; simpl; [done| |done].
  intros key rs Hrs. destruct (Hr key rs Hrs) as [Hvalid Hfns]. split; [|done].
  eapply Forall_impl; [exact Hvalid|]. intros rule. by apply validRule_mono.
Qed.

Lemma consistent_constructor : Consistent constructor.
Proof.
  split; simpl.
  - intros name i H. by rewrite lookup_empty in H.
  - intros key rs H. by rewrite lookup_empty in H.
  - intros key [x H]. by rewrite lookup_empty in H.
Qed.

Lemma consistent_loadDecorators require requireFn rootPath config r :
  Consistent r ->
  Consistent (snd (loadDecorators require requireFn rootPath config r)).
Proof.
  intros Hr. unfold loadDecorators, onDecorators, zoom.
  pose proof (forOf_preserves
                (fun ds => (forall name i, ds !! name = Some i -> Configured i)
                           /\ dom (decorators r) ⊆ dom ds)
                (loadDecorator require requireFn rootPath) config) as Hloop.
  destruct (loadDecoratorsInto require requireFn rootPath config (decorators r))
    as [res ds'] eqn:Hload. simpl.
  unfold loadDecoratorsInto in Hload.
  specialize (Hloop) with (s := decorators r). rewrite Hload in Hloop. simpl in Hloop.
  destruct Hloop as [Hi Hsub].
  - intros entry ds [Hi Hsub].
    destruct (loadDecorator_outcome require requireFn rootPath entry ds)
      as [[e H]|(i & H & Hconf)]; rewrite H; simpl; [done|]. split.
    + intros name i0. destruct (decide (entry.1 = name)) as [<-|Hne].
      * rewrite lookup_insert_eq. by intros [= <-].
      * rewrite lookup_insert_ne by done. apply Hi.
    + rewrite dom_insert_L. by apply union_subseteq_r'.
  - split; [apply (consistent_instances r Hr) | done].
  - by apply consistent_setDecorators.
Qed.

Lemma consistent_loadRuleSet entry r :
  Consistent r -> Consistent (snd (loadRuleSet entry r)).
Proof.
  intros [Hi Hr Hd]. destruct entry as [key v].
  destruct (loadRuleSet (key, v) r) as [[[]|e] r'] eqn:Hl; simpl.
  - apply loadRuleSet_ok in Hl as (rs & fns & -> & Hvalid & Hall & ->).
    split; simpl; [done| |].
    + intros k rs0. destruct (decide (key = k)) as [<-|Hne].
      * rewrite !lookup_insert_eq. intros [= <-]. eauto.
      * rewrite !lookup_insert_ne by done. apply Hr.
    + intros k. destruct (decide (key = k)) as [<-|Hne].
      * rewrite !lookup_insert_eq. eauto.
      * rewrite !lookup_insert_ne by done. apply Hd.
  - apply loadRuleSet_throw in Hl as ->. by split.
Qed.

Lemma consistent_loadRules config r :
  Consistent r -> Consistent (snd (loadRules config r)).
Proof.
  apply (forOf_preserves Consistent). intros entry s. apply consistent_loadRuleSet.
Qed.

Lemma upToFields_configured ds ds' :
  UpToFields ds ds' ->
  (forall name i, ds !! name = Some i -> Configured i) ->
  forall name i, ds' !! name = Some i -> Configured i.
Proof.
  intros Hup Hi name i' Hl. specialize (Hup name). rewrite Hl in Hup.
  inversion Hup as [i ? [Hc Hlog] Hds|]; subst. symmetry in Hds.
  destruct (Hi name i Hds) as (H1 & H2 & H3).
  unfold Configured. by rewrite <- Hc, <- Hlog.
Qed.

Lemma consistent_decorateMessage decoration message options r :
  Consistent r -> Consistent (snd (decorateMessage decoration message options r)).
Proof.
  intros Hr. rewrite decorateMessage_runSteps. unfold onDecorators, zoom.
  pose proof (runSteps_upToFields (defaultArg options emptyObject)
                (stepOf <$> decoration) message (decorators r)) as Hup.
  destruct (runSteps _ _ _ (decorators r)) as [res ds']. simpl in *.
  apply consistent_setDecorators; [done | |].
  - by apply (upToFields_configured (decorators r)), (consistent_instances r).
  - by rewrite (upToFields_dom _ _ Hup).
Qed.

Lemma reachable_invariant r : Reachable r -> Consistent r.
Proof.
  induction 1 as [|require requireFn rootPath config r _ IH
                  |config r _ IH
                  |decoration message options r _ IH].
  - apply consistent_constructor.
  - by apply consistent_loadDecorators.
  - by apply consistent_loadRules.
  - by apply consistent_decorateMessage.
Qed.

(** X5.  Every registry that the methods produce from a new one is
    consistent: each stored instance has [decorate] and [configure] and has
    been configured exactly once; an identifier has rules exactly when it
    has a decoration, which is the one compiled from those rules; and every
    stored rule names a decorator that is stored. *)
Theorem reachable_consistent r : Reachable r -> Consistent r.
Proof.
  intros Hreach. destruct (reachable_invariant r Hreach) as [Hi Hr Hd].
  split; [exact Hi | exact Hr | exact Hd].
Qed.

(** A list of steps whose decorators are stored and return on every call
    returns. *)
Lemma runSteps_returns options steps message ds :
  Forall (fun step => mapHas ds step.1 = true) steps ->
  (forall name i,
     ds !! name = Some i ->
     exists g, decorateMethod (inst_class i) = Some g /\ Returns g) ->
  exists result ds', runSteps options steps message ds = (Ok result, ds').
Proof.
  intros Hsteps. revert message ds Hsteps.
  induction steps as [|[decorator config] steps IH]; intros message ds Hsteps Hds.
  - by exists message, ds.
  - apply Forall_cons in Hsteps as [Hhas Hsteps]. simpl in Hhas.
    unfold runSteps. simpl. unfold bind.
    pose proof (invokeDecorate_upToFields decorator message
                  (jsOr config emptyObject) options ds) as Hup.
    assert (exists acc ds0,
              invokeDecorate decorator message (jsOr config emptyObject) options ds
              = (Ok acc, ds0)) as (acc & ds0 & Hcall).
    { apply mapHas_true in Hhas as [i Hi]. destruct decorator; try done.
      simpl in Hi. destruct (Hds _ _ Hi) as (g & Hg & Hret).
      unfold invokeDecorate. rewrite Hi, Hg.
      destruct (Hret (inst_fields i) message (jsOr config emptyObject) options)
        as (acc & fs & ->). eauto. }
    rewrite Hcall in Hup |- *. simpl in Hup. apply IH.
    + eapply Forall_impl; [exact Hsteps|]. intros step Hstep. simpl in Hstep.
      by rewrite <- (upToFields_mapHas _ _ _ Hup).
    + intros name i' Hi'. specialize (Hup name). rewrite Hi' in Hup.
      inversion Hup as [i ? [Hc _] Hi|]; subst. symmetry in Hi.
      destruct (Hds _ _ Hi) as (g & Hg & Hret). exists g. by rewrite <- Hc.
Qed.

(** X6.  In a registry that the methods produced, a stored decoration
    never fails on its own: when the [decorate] methods of the stored
    instances return on every call, the decoration returns a message for
    every message and options. *)
Theorem stored_decoration_returns r identifier decoration :
  Reachable r ->
  getDecoration r identifier = Some decoration ->
  (forall name i g,
     decorators r !! name = Some i ->
     decorateMethod (inst_class i) = Some g ->
     Returns g) ->
  forall message options,
    exists result r', decorateMessage decoration message options r = (Ok result, r').
Proof.
  intros Hreach Hdec Hret message options.
  destruct (reachable_invariant r Hreach) as [Hi Hr Hd].
  destruct identifier as [| | | |key| |]; try done. simpl in Hdec.
  destruct (Hd key) as [rs Hrs]; [eauto|].
  destruct (Hr key rs Hrs) as (Hvalid & fns & Hfns & Hall).
  rewrite Hdec in Hfns. injection Hfns as <-.
  rewrite decorateMessage_runSteps. unfold onDecorators, zoom.
  destruct (runSteps_returns (defaultArg options emptyObject)
              (stepOf <$> decoration) message (decorators r))
    as (result & ds' & ->); [| |by eauto].
  - clear Hrs Hdec. induction Hall as [|rule f rs fns [Hfd _] _ IH]; [constructor|].
    apply Forall_cons in Hvalid as [(d & Hd' & _ & Hhas) Hvalid].
    rewrite fmap_cons. constructor; [|by apply IH]. simpl. congruence.
  - intros name i Hl. destruct (Hi name i Hl) as ([g Hg] & _ & _).
    exists g. split; [done|]. by apply (Hret name i).
Qed.
End Invariant.

Lemma compiledA_reachable : Reachable Samples.compiledA.
Proof.
  unfold Samples.compiledA, Samples.loaded.
  apply reach_loadRules, reach_loadDecorators, reach_constructor.
Defined.

Lemma reachable_consistent_witness :
  Reachable Samples.compiledA /\ Consistent Samples.compiledA.
Proof.
  split; [exact compiledA_reachable|].
  exact (reachable_consistent Samples.compiledA compiledA_reachable).
Defined.

Lemma sample_decorators_return name i g :
  Precompiled.decorators Samples.compiledA !! name = Some i ->
  decorateMethod (inst_class i) = Some g ->
  Returns g.
Proof.
  assert (Precompiled.decorators Samples.compiledA
          = <["a" := Samples.configured (Samples.suffixClass "a")
                       [("name", VStr "a"); ("config", emptyObject)] emptyObject]>
              (<["b" := Samples.configured (Samples.suffixClass "b")
                          [("name", VStr "b"); ("config", emptyObject)] emptyObject]>
                 (<["o" := Samples.configured Samples.optionsClass
                             [("name", VStr "o")] emptyObject]> ∅))) as ->
    by (vm_compute; reflexivity).
  intros Hl Hg.
  repeat (apply lookup_insert_Some in Hl as [[_ <-]|[_ Hl]];
          [injection Hg as <-; intros fs m c o; by eexists _, _|]).
  by rewrite lookup_empty in Hl.
Defined.

Lemma stored_decoration_returns_witness :
  Reachable Samples.compiledA
  /\ Precompiled.getDecoration Samples.compiledA (VStr "console")
     = Some (Precompiled.decoration Samples.decoratedConsole)
  /\ (forall name i g,
        Precompiled.decorators Samples.compiledA !! name = Some i ->
        decorateMethod (inst_class i) = Some g ->
        Returns g)
  /\ forall message options,
       exists result r',
         Precompiled.decorateMessage (Precompiled.decoration Samples.decoratedConsole)
           message options Samples.compiledA = (Ok result, r').
Proof.
  assert (Precompiled.getDecoration Samples.compiledA (VStr "console")
          = Some (Precompiled.decoration Samples.decoratedConsole)) as H
    by (vm_compute; reflexivity).
  split; [exact compiledA_reachable|]. split; [exact H|].
  split; [exact sample_decorators_return|].
  exact (stored_decoration_returns _ _ _ compiledA_reachable H sample_decorators_return).
Defined.

(** ** The second variant *)

Section LazyVariant.
Implicit Types (rp : Precompiled.Registry) (rl : Lazy.Registry).

(** The closures of the second variant act on [decorators] only, by the
    calls of their steps with no third argument. *)
Lemma lazy_reduce_runSteps cls message rl :
  reduce (fun acc decorate => Lazy.callClosure decorate acc) cls message rl
  = Lazy.onDecorators (runSteps VUndefined (stepOfClosure <$> cls) message) rl.
Proof.
  revert message rl. induction cls as [|c cls IH]; intros message rl;
    [by destruct rl|].
  simpl. unfold bind at 1. unfold Lazy.callClosure at 1.
  unfold Lazy.onDecorators, zoom, runSteps. simpl. unfold bind.
  destruct (invokeDecorate _ message _ VUndefined (Lazy.decorators rl))
    as [[acc|e] ds0]; [|done].
  rewrite IH. reflexivity.
Qed.

(** What [write] of the class returned by the second variant does. *)
Lemma lazy_write_unfold {S} (d : Lazy.Decorated S) args rl (s : S) :
  Lazy.write d args (rl, s) =
  match reduce (fun acc decorate => Lazy.callClosure decorate acc)
               (Lazy.closures d) (arg 0 args) rl with
  | (Throw e, rl') => (Throw e, (rl', s))
  | (Ok message, rl') =>
      match methods (Lazy.base d) "write" with
      | None =>
          (Throw (TypeError "(intermediate value).write is not a function"), (rl', s))
      | Some original =>
          match original [message; arg 1 args] s with
          | (Ok _, s') => (Ok VUndefined, (rl', s'))
          | (Throw e, s') => (Throw e, (rl', s'))
          end
      end
  end.
Proof.
  unfold Lazy.write, Lazy.onRegistry, superCall, zoom, bind, throw, ret. simpl.
  destruct (reduce _ _ _ rl) as [[message|e] rl']; simpl; [|done].
  destruct (methods (Lazy.base d) "write") as [original|]; simpl; [|done].
  by destruct (original _ s) as [[v|e] s'].
Qed.

(** X9.  The second variant decorates a stream class whose identifier
    has no rules: [decorate] returns, and [write] of the returned class
    hands message and second argument to the original [write] as they
    are and leaves the registry alone. *)
Theorem lazy_decorate_without_rules {S} rl (sc : TransportStream S) :
  truthy (identifier sc) = true ->
  mapGet (Lazy.rules rl) (identifier sc) = None ->
  exists d,
    Lazy.decorate rl sc = Ok d
    /\ forall original args rc (s : S),
         methods sc "write" = Some original ->
         Lazy.write d args (rc, s) =
         match original [arg 0 args; arg 1 args] s with
         | (Ok _, s') => (Ok VUndefined, (rc, s'))
         | (Throw e, s') => (Throw e, (rc, s'))
         end.
Proof.
  intros Htruthy Hnone. unfold Lazy.decorate, Lazy.getRules.
  rewrite Htruthy. simpl. apply mapHas_false in Hnone. rewrite Hnone. simpl.
  eexists. split; [done|]. intros original args rc s Horig.
  rewrite lazy_write_unfold. simpl. by rewrite Horig.
Qed.

Lemma validateRule_alike key rule rp rl :
  Precompiled.decorators rp = Lazy.decorators rl ->
  Lazy.validateRule key rule rl = (fst (Precompiled.validateRule key rule rp), rl).
Proof.
  intros Hds. unfold Lazy.validateRule, Precompiled.validateRule.
  unfold bind, liftR, throw, gets, ret. simpl.
  destruct (getProp rule "decorator") as [d|e]; simpl; [|done].
  destruct (truthy d); simpl; [|done].
  rewrite Hds. destruct (mapHas (Lazy.decorators rl) d); simpl; [done|].
  by destruct (toStringV d).
Qed.

Lemma validateRules_alike key rs rp rl :
  Precompiled.decorators rp = Lazy.decorators rl ->
  forOf (Lazy.validateRule key) rs rl
  = (fst (forOf (Precompiled.validateRule key) rs rp), rl).
Proof.
  intros Hds. induction rs as [|rule rs IH]; [done|].
  simpl. unfold bind. rewrite (validateRule_alike key rule rp rl Hds).
  pose proof (validateRule_state key rule rp) as Hs.
  destruct (Precompiled.validateRule key rule rp) as [[[]|e] r0]; simpl in *; [|done].
  subst r0. apply IH.
Qed.

Lemma lazy_loadRuleSet_array key rs rl :
  Lazy.loadRuleSet (key, VArr rs) rl =
  match forOf (Lazy.validateRule key) rs rl with
  | (Ok _, r) =>
      (Ok tt, {| Lazy.decorators := Lazy.decorators r;
                 Lazy.rules := <[key := rs]> (Lazy.rules r) |})
  | (Throw e, r) => (Throw e, r)
  end.
Proof.
  unfold Lazy.loadRuleSet, bind, modify.
  by destruct (forOf (Lazy.validateRule key) rs rl) as [[[]|e] r].
Qed.

Lemma loadRuleSet_array key rs rp :
  Precompiled.loadRuleSet (key, VArr rs) rp =
  match forOf (Precompiled.validateRule key) rs rp with
  | (Ok _, r) =>
      match mapR Precompiled.compileRule rs with
      | Ok fns =>
          (Ok tt, {| Precompiled.decorators := Precompiled.decorators r;
                     Precompiled.rules := <[key := rs]> (Precompiled.rules r);
                     Precompiled.decorations :=
                       <[key := fns]> (Precompiled.decorations r) |})
      | Throw e => (Throw e, r)
      end
  | (Throw e, r) => (Throw e, r)
  end.
Proof.
  unfold Precompiled.loadRuleSet, bind, modify, liftR.
  destruct (forOf (Precompiled.validateRule key) rs rp) as [[[]|e] r]; [|done].
  by destruct (mapR Precompiled.compileRule rs).
Qed.

Lemma loadRuleSet_alike entry rp rl :
  Precompiled.decorators rp = Lazy.decorators rl ->
  Precompiled.rules rp = Lazy.rules rl ->
  fst (Precompiled.loadRuleSet entry rp) = fst (Lazy.loadRuleSet entry rl)
  /\ Precompiled.decorators (snd (Precompiled.loadRuleSet entry rp))
     = Lazy.decorators (snd (Lazy.loadRuleSet entry rl))
  /\ Precompiled.rules (snd (Precompiled.loadRuleSet entry rp))
     = Lazy.rules (snd (Lazy.loadRuleSet entry rl)).
Proof.
  intros Hds Hrs. destruct entry as [key v].
  destruct v as [| | | | | |rs]; try done.
  rewrite loadRuleSet_array, lazy_loadRuleSet_array.
  rewrite (validateRules_alike key rs rp rl Hds).
  pose proof (validateRules_state key rs rp) as Hs.
  destruct (forOf (Precompiled.validateRule key) rs rp) as [[[]|e] r0] eqn:Hv;
    simpl in Hs; subst r0; simpl; [|done].
  apply validateRules_ok in Hv. destruct (compile_valid _ _ Hv) as (fns & Hfns & _).
  rewrite Hfns. simpl. by rewrite Hrs.
Qed.

Lemma loadRules_alike config rp rl :
  Precompiled.decorators rp = Lazy.decorators rl ->
  Precompiled.rules rp = Lazy.rules rl ->
  fst (Precompiled.loadRules config rp) = fst (Lazy.loadRules config rl)
  /\ Precompiled.decorators (snd (Precompiled.loadRules config rp))
     = Lazy.decorators (snd (Lazy.loadRules config rl))
  /\ Precompiled.rules (snd (Precompiled.loadRules config rp))
     = Lazy.rules (snd (Lazy.loadRules config rl)).
Proof.
  revert rp rl. induction config as [|entry config IH]; intros rp rl Hds Hrs; [done|].
  unfold Precompiled.loadRules, Lazy.loadRules. simpl. unfold bind.
  destruct (loadRuleSet_alike entry rp rl Hds Hrs) as (Hres & Hds' & Hrs').
  destruct (Precompiled.loadRuleSet entry rp) as [res1 rp'].
  destruct (Lazy.loadRuleSet entry rl) as [res2 rl']. simpl in *. subst res2.
  destruct res1 as [[]|e]; [|done]. by apply IH.
Qed.

(** X14.  The two variants load alike: from registries with the same
    [decorators] and [rules], [loadRules] with the same configuration
    returns or throws the same error in both and leaves the same
    [decorators] and [rules], and so does [loadDecorators]. *)
Theorem variants_load_alike require requireFn rootPath specs config rp rl :
  Precompiled.decorators rp = Lazy.decorators rl ->
  Precompiled.rules rp = Lazy.rules rl ->
  (fst (Precompiled.loadRules config rp) = fst (Lazy.loadRules config rl)
   /\ Precompiled.decorators (snd (Precompiled.loadRules config rp))
      = Lazy.decorators (snd (Lazy.loadRules config rl))
   /\ Precompiled.rules (snd (Precompiled.loadRules config rp))
      = Lazy.rules (snd (Lazy.loadRules config rl)))
  /\ (fst (Precompiled.loadDecorators require requireFn rootPath specs rp)
      = fst (Lazy.loadDecorators require requireFn rootPath specs rl)
      /\ Precompiled.decorators
           (snd (Precompiled.loadDecorators require requireFn rootPath specs rp))
         = Lazy.decorators
             (snd (Lazy.loadDecorators require requireFn rootPath specs rl))
      /\ Precompiled.rules
           (snd (Precompiled.loadDecorators require requireFn rootPath specs rp))
         = Lazy.rules
             (snd (Lazy.loadDecorators require requireFn rootPath specs rl))).
Proof.
  intros Hds Hrs. split; [by apply loadRules_alike|].
  unfold Precompiled.loadDecorators, Lazy.loadDecorators,
    Precompiled.onDecorators, Lazy.onDecorators, zoom.
  rewrite Hds.
  by destruct (loadDecoratorsInto require requireFn rootPath specs (Lazy.decorators rl)).
Qed.
End LazyVariant.

Section LazyWrites.
Implicit Types (rp : Precompiled.Registry) (rl : Lazy.Registry).

(** Rules that the first variant compiled give the second variant
    closures with the same steps. *)
Lemma makeClosure_of_compiled rs fns :
  Forall2 CompiledFrom rs fns ->
  exists cls,
    mapR Lazy.makeClosure rs = Ok cls
    /\ Forall2 ClosureFrom rs cls
    /\ stepOfClosure <$> cls = stepOf <$> fns.
Proof.
  induction 1 as [|rule f rs fns [Hd Hc] _ (cls & Hcls & Hall & Hsteps)].
  - by exists [].
  - exists ({| Lazy.cl_decorator := Precompiled.fn_decorator f;
               Lazy.cl_config := Precompiled.fn_config f |} :: cls).
    simpl. unfold Lazy.makeClosure at 1. rewrite Hd, Hc, Hcls.
    split; [done|]. split; [by constructor|].
    change (stepOf f :: (stepOfClosure <$> cls) = stepOf f :: (stepOf <$> fns)).
    by rewrite Hsteps.
Qed.

Lemma callClosure_applyRuleLazy rule c message rl :
  ClosureFrom rule c ->
  Lazy.callClosure c message rl = applyRuleLazy rule message rl.
Proof.
  intros [Hd Hc]. unfold applyRuleLazy, Lazy.callClosure, bind, liftR.
  by rewrite Hd, Hc.
Qed.

Lemma lazy_reduce_rules rs cls message rl :
  Forall2 ClosureFrom rs cls ->
  reduce (fun acc decorate => Lazy.callClosure decorate acc) cls message rl
  = reduce (fun acc rule => applyRuleLazy rule acc) rs message rl.
Proof.
  intros Hall. revert message rl.
  induction Hall as [|rule c rs cls Hc _ IH]; intros message rl; simpl; [done|].
  unfold bind. rewrite (callClosure_applyRuleLazy rule c) by done.
  destruct (applyRuleLazy rule message rl) as [[m'|e] rl']; [apply IH | done].
Qed.

(** The rules that [loadRules] of the second variant stored for an
    identifier of its configuration. *)
Lemma lazy_loadRules_registered config rl rl' key rs :
  Lazy.loadRules config rl = (Ok tt, rl') ->
  NoDup config.*1 ->
  (key, VArr rs) ∈ config ->
  Lazy.rules rl' !! key = Some rs
  /\ exists cls, mapR Lazy.makeClosure rs = Ok cls /\ Forall2 ClosureFrom rs cls.
Proof.
  intros Hload Hnodup Hin.
  set (rp := {| Precompiled.decorators := Lazy.decorators rl;
                Precompiled.rules := Lazy.rules rl;
                Precompiled.decorations := ∅ |}).
  destruct (loadRules_alike config rp rl eq_refl eq_refl) as (Hres & _ & Hrules).
  rewrite Hload in Hres, Hrules. simpl in Hres, Hrules.
  destruct (Precompiled.loadRules config rp) as [res rp'] eqn:Hp.
  simpl in Hres, Hrules. subst res.
  destruct (loadRules_registered _ _ _ _ _ Hp Hnodup Hin) as (fns & Hr & _ & Hall).
  rewrite <- Hrules. split; [done|].
  destruct (makeClosure_of_compiled rs fns Hall) as (cls & Hcls & Hc & _). eauto.
Qed.

(** X10.  In the second variant, for an identifier whose rules loaded, a
    stream class with that (non-empty) identifier is decorated, and
    [write] of the returned class applies the rules from first to last,
    each with the stored decorator of its name, its config ([{}] when it
    has none) and no third argument, then calls the original [write] with
    the result and the second argument it was given. *)
Theorem lazy_write_left_to_right {S} config rl rl' key rs (sc : TransportStream S) :
  Lazy.loadRules config rl = (Ok tt, rl') ->
  NoDup config.*1 ->
  (key, VArr rs) ∈ config ->
  key <> EmptyString ->
  identifier sc = VStr key ->
  exists d,
    Lazy.decorate rl' sc = Ok d
    /\ forall original args rc (s : S),
         methods sc "write" = Some original ->
         Lazy.write d args (rc, s) =
         match reduce (fun acc rule => applyRuleLazy rule acc) rs (arg 0 args) rc with
         | (Throw e, rc') => (Throw e, (rc', s))
         | (Ok message, rc') =>
             match original [message; arg 1 args] s with
             | (Ok _, s') => (Ok VUndefined, (rc', s'))
             | (Throw e, s') => (Throw e, (rc', s'))
             end
         end.
Proof.
  intros Hload Hnodup Hin Hkey Hsc.
  destruct (lazy_loadRules_registered _ _ _ _ _ Hload Hnodup Hin)
    as (Hrs & cls & Hcls & Hall).
  assert (truthy (VStr key) = true) as Htruthy.
  { simpl. by destruct (String.eqb_spec key EmptyString). }
  unfold Lazy.decorate, Lazy.getRules, mapHas. rewrite Hsc, Htruthy. simpl.
  rewrite Hrs. simpl. rewrite Hcls.
  eexists. split; [done|]. intros original args rc s Horig.
  rewrite lazy_write_unfold. simpl. rewrite Horig.
  by rewrite (lazy_reduce_rules rs cls).
Qed.

(** Decorators that do not look at their third argument make the calls
    of a list of steps independent of the options. *)
Lemma runSteps_ignores_options options options' steps message (ds : Decorators) :
  (forall name i g,
     ds !! name = Some i ->
     decorateMethod (inst_class i) = Some g ->
     IgnoresOptions g) ->
  runSteps options steps message ds = runSteps options' steps message ds.
Proof.
  revert message ds. induction steps as [|[decorator config] steps IH];
    intros message ds Hign; [done|].
  unfold runSteps. simpl. unfold bind.
  pose proof (invokeDecorate_upToFields decorator message
                (jsOr config emptyObject) options ds) as Hup.
  assert (invokeDecorate decorator message (jsOr config emptyObject) options ds
          = invokeDecorate decorator message (jsOr config emptyObject) options' ds)
    as Hcall.
  { unfold invokeDecorate. destruct decorator; try done.
    destruct (ds !! s) as [i|] eqn:Hi; [|done].
    destruct (decorateMethod (inst_class i)) as [g|] eqn:Hg; [|done].
    by rewrite (Hign _ _ _ Hi Hg _ _ _ options options'). }
  rewrite <- Hcall.
  destruct (invokeDecorate _ _ _ options ds) as [[acc|e] ds0]; [|done].
  simpl in Hup. apply IH. intros name i' g Hi' Hg.
  specialize (Hup name). rewrite Hi' in Hup.
  inversion Hup as [i ? [Hc _] Hi|]; subst. symmetry in Hi.
  rewrite <- Hc in Hg. by apply (Hign name i g).
Qed.

(** X11.  The two variants agree whenever the decorators do not look at
    their third argument: for registries with the same [decorators] and
    [rules], the first one produced by the methods, the classes that the
    two variants return for a stream class write alike: same outcome,
    same state of the stream, same [decorators] afterwards. *)
Theorem variants_agree_when_options_ignored {S}
    rp rl (sc : TransportStream S) d1 d2 :
  Reachable rp ->
  Precompiled.decorators rp = Lazy.decorators rl ->
  Precompiled.rules rp = Lazy.rules rl ->
  (forall name i g,
     Precompiled.decorators rp !! name = Some i ->
     decorateMethod (inst_class i) = Some g ->
     IgnoresOptions g) ->
  Precompiled.decorate rp sc = Ok d1 ->
  Lazy.decorate rl sc = Ok d2 ->
  forall args (s : S),
    fst (Precompiled.write d1 args (rp, s)) = fst (Lazy.write d2 args (rl, s))
    /\ snd (snd (Precompiled.write d1 args (rp, s)))
       = snd (snd (Lazy.write d2 args (rl, s)))
    /\ Precompiled.decorators (fst (snd (Precompiled.write d1 args (rp, s))))
       = Lazy.decorators (fst (snd (Lazy.write d2 args (rl, s)))).
Proof.
  intros Hreach Hds Hrules Hign Hd1 Hd2 args s.
  destruct (reachable_invariant rp Hreach) as [_ Hr Hd].
  destruct (decorate_ok _ _ _ Hd1) as (Htruthy & Hbase1 & Hdec).
  destruct (identifier sc) as [| | | |key| |] eqn:Hid; try done.
  unfold Precompiled.getDecoration in Hdec. simpl in Hdec.
  destruct (Hd key) as [rs Hrs]; [eauto|].
  destruct (Hr key rs Hrs) as (_ & fns & Hfns & Hall).
  rewrite Hdec in Hfns. injection Hfns as <-.
  destruct (makeClosure_of_compiled rs _ Hall) as (cls & Hcls & _ & Hsteps).
  unfold Lazy.decorate, Lazy.getRules, mapHas in Hd2.
  rewrite Hid, Htruthy in Hd2. simpl in Hd2. rewrite <- Hrules, Hrs in Hd2.
  simpl in Hd2. rewrite Hcls in Hd2. injection Hd2 as <-.
  rewrite write_unfold, lazy_write_unfold, decorateMessage_runSteps,
    lazy_reduce_runSteps. simpl Lazy.closures. simpl Lazy.base.
  rewrite Hbase1, Hsteps.
  unfold Precompiled.onDecorators, Lazy.onDecorators, zoom. rewrite <- Hds.
  rewrite (runSteps_ignores_options _ VUndefined _ _ _ Hign).
  destruct (runSteps VUndefined _ _ (Precompiled.decorators rp))
    as [[message|e] ds0]; simpl; [|done].
  destruct (methods sc "write") as [original|]; simpl; [|done].
  by destruct (original _ s) as [[v|e] s0].
Qed.
End LazyWrites.

Lemma lazy_decorate_without_rules_witness :
  truthy (identifier (Samples.recorder (VStr "console"))) = true
  /\ mapGet (Lazy.rules Samples.loadedLazy)
       (identifier (Samples.recorder (VStr "console"))) = None
  /\ exists d,
       Lazy.decorate Samples.loadedLazy (Samples.recorder (VStr "console")) = Ok d
       /\ forall original args rc s,
            methods (Samples.recorder (VStr "console")) "write" = Some original ->
            Lazy.write d args (rc, s) =
            match original [arg 0 args; arg 1 args] s with
            | (Ok _, s') => (Ok VUndefined, (rc, s'))
            | (Throw e, s') => (Throw e, (rc, s'))
            end.
Proof.
  assert (truthy (identifier (Samples.recorder (VStr "console"))) = true) as H1
    by reflexivity.
  assert (mapGet (Lazy.rules Samples.loadedLazy)
            (identifier (Samples.recorder (VStr "console"))) = None) as H2
    by (vm_compute; reflexivity).
  split; [exact H1|]. split; [exact H2|].
  exact (lazy_decorate_without_rules Samples.loadedLazy _ H1 H2).
Defined.

Lemma variants_load_alike_witness :
  Precompiled.decorators Samples.loaded = Lazy.decorators Samples.loadedLazy
  /\ Precompiled.rules Samples.loaded = Lazy.rules Samples.loadedLazy
  /\ (fst (Precompiled.loadRules Cases.rejected Samples.loaded)
      = fst (Lazy.loadRules Cases.rejected Samples.loadedLazy)
      /\ Precompiled.decorators (snd (Precompiled.loadRules Cases.rejected Samples.loaded))
         = Lazy.decorators (snd (Lazy.loadRules Cases.rejected Samples.loadedLazy))
      /\ Precompiled.rules (snd (Precompiled.loadRules Cases.rejected Samples.loaded))
         = Lazy.rules (snd (Lazy.loadRules Cases.rejected Samples.loadedLazy)))
  /\ (fst (Precompiled.loadDecorators Samples.require Samples.requireFn "/srv"
             Cases.aborting Samples.loaded)
      = fst (Lazy.loadDecorators Samples.require Samples.requireFn "/srv"
               Cases.aborting Samples.loadedLazy)
      /\ Precompiled.decorators
           (snd (Precompiled.loadDecorators Samples.require Samples.requireFn "/srv"
                   Cases.aborting Samples.loaded))
         = Lazy.decorators
             (snd (Lazy.loadDecorators Samples.require Samples.requireFn "/srv"
                     Cases.aborting Samples.loadedLazy))
      /\ Precompiled.rules
           (snd (Precompiled.loadDecorators Samples.require Samples.requireFn "/srv"
                   Cases.aborting Samples.loaded))
         = Lazy.rules
             (snd (Lazy.loadDecorators Samples.require Samples.requireFn "/srv"
                     Cases.aborting Samples.loadedLazy))).
Proof.
  assert (Precompiled.decorators Samples.loaded = Lazy.decorators Samples.loadedLazy)
    as H1 by (vm_compute; reflexivity).
  assert (Precompiled.rules Samples.loaded = Lazy.rules Samples.loadedLazy)
    as H2 by (vm_compute; reflexivity).
  split; [exact H1|]. split; [exact H2|].
  exact (variants_load_alike Samples.require Samples.requireFn "/srv"
           Cases.aborting Cases.rejected _ _ H1 H2).
Defined.

Lemma lazy_write_left_to_right_witness :
  Lazy.loadRules Samples.rulesAB Samples.loadedLazy = (Ok tt, Cases.lazyAB)
  /\ NoDup Samples.rulesAB.*1
  /\ ("console", VArr [Samples.rule "a"; Samples.rule "b"]) ∈ Samples.rulesAB
  /\ "console" <> EmptyString
  /\ identifier (Samples.recorder (VStr "console")) = VStr "console"
  /\ exists d,
       Lazy.decorate Cases.lazyAB (Samples.recorder (VStr "console")) = Ok d
       /\ forall original args rc s,
            methods (Samples.recorder (VStr "console")) "write" = Some original ->
            Lazy.write d args (rc, s) =
            match reduce (fun acc rule => applyRuleLazy rule acc)
                         [Samples.rule "a"; Samples.rule "b"] (arg 0 args) rc with
            | (Throw e, rc') => (Throw e, (rc', s))
            | (Ok message, rc') =>
                match original [message; arg 1 args] s with
                | (Ok _, s') => (Ok VUndefined, (rc', s'))
                | (Throw e, s') => (Throw e, (rc', s'))
                end
            end.
Proof.
  assert (Lazy.loadRules Samples.rulesAB Samples.loadedLazy = (Ok tt, Cases.lazyAB))
    as H1 by (vm_compute; reflexivity).
  assert (NoDup Samples.rulesAB.*1) as H2 by apply NoDup_singleton.
  assert (("console", VArr [Samples.rule "a"; Samples.rule "b"]) ∈ Samples.rulesAB)
    as H3 by (apply list_elem_of_singleton; reflexivity).
  assert ("console" <> EmptyString) as H4 by discriminate.
  assert (identifier (Samples.recorder (VStr "console")) = VStr "console") as H5
    by reflexivity.
  split; [exact H1|]. split; [exact H2|]. split; [exact H3|].
  split; [exact H4|]. split; [exact H5|].
  exact (lazy_write_left_to_right _ _ _ _ _ _ H1 H2 H3 H4 H5).
Defined.

Lemma quiet_reachable : Reachable Cases.quiet.
Proof.
  unfold Cases.quiet.
  apply reach_loadRules, reach_loadDecorators, reach_constructor.
Defined.

Lemma quiet_ignores_options name i g :
  Precompiled.decorators Cases.quiet !! name = Some i ->
  decorateMethod (inst_class i) = Some g ->
  IgnoresOptions g.
Proof.
  assert (Precompiled.decorators Cases.quiet
          = <["a" := Samples.configured (Samples.suffixClass "a")
                       [("name", VStr "a"); ("config", emptyObject)] emptyObject]>
              (<["b" := Samples.configured (Samples.suffixClass "b")
                          [("name", VStr "b"); ("config", emptyObject)] emptyObject]>
                 ∅)) as ->
    by (vm_compute; reflexivity).
  intros Hl Hg.
  repeat (apply lookup_insert_Some in Hl as [[_ <-]|[_ Hl]];
          [injection Hg as <-; by intros fs m c o o'|]).
  by rewrite lookup_empty in Hl.
Defined.

Lemma variants_agree_when_options_ignored_witness :
  Reachable Cases.quiet
  /\ Precompiled.decorators Cases.quiet = Lazy.decorators Cases.quietLazy
  /\ Precompiled.rules Cases.quiet = Lazy.rules Cases.quietLazy
  /\ (forall name i g,
        Precompiled.decorators Cases.quiet !! name = Some i ->
        decorateMethod (inst_class i) = Some g ->
        IgnoresOptions g)
  /\ Precompiled.decorate Cases.quiet (Samples.recorder (VStr "console"))
     = Ok Cases.quietDecorated
  /\ Lazy.decorate Cases.quietLazy (Samples.recorder (VStr "console"))
     = Ok Cases.quietDecoratedLazy
  /\ forall args s,
       fst (Precompiled.write Cases.quietDecorated args (Cases.quiet, s))
       = fst (Lazy.write Cases.quietDecoratedLazy args (Cases.quietLazy, s))
       /\ snd (snd (Precompiled.write Cases.quietDecorated args (Cases.quiet, s)))
          = snd (snd (Lazy.write Cases.quietDecoratedLazy args (Cases.quietLazy, s)))
       /\ Precompiled.decorators
            (fst (snd (Precompiled.write Cases.quietDecorated args (Cases.quiet, s))))
          = Lazy.decorators
              (fst (snd (Lazy.write Cases.quietDecoratedLazy args (Cases.quietLazy, s)))).
Proof.
  assert (Precompiled.decorators Cases.quiet = Lazy.decorators Cases.quietLazy)
    as H1 by (vm_compute; reflexivity).
  assert (Precompiled.rules Cases.quiet = Lazy.rules Cases.quietLazy)
    as H2 by (vm_compute; reflexivity).
  assert (Precompiled.decorate Cases.quiet (Samples.recorder (VStr "console"))
          = Ok Cases.quietDecorated) as H3 by (vm_compute; reflexivity).
  assert (Lazy.decorate Cases.quietLazy (Samples.recorder (VStr "console"))
          = Ok Cases.quietDecoratedLazy) as H4 by (vm_compute; reflexivity).
  split; [exact quiet_reachable|]. split; [exact H1|]. split; [exact H2|].
  split; [exact quiet_ignores_options|]. split; [exact H3|]. split; [exact H4|].
  exact (variants_agree_when_options_ignored _ _ _ _ _
           quiet_reachable H1 H2 quiet_ignores_options H3 H4).
Defined.

(** ** EventUtil over a decorated stream *)

(** X12.  [genWrite] and [genSay] call [write] with one argument.  Over
    the [write] of a decorated stream this means: the decoration runs with
    [{}] as options, on the string for [genWrite] and on the text of the
    string with the line end appended for [genSay], and the original
    [write] receives the decorated message and [undefined] as options.
    When the argument of [genSay] has no conversion to text, the
    concatenation throws and [write] is not called. *)
Theorem genWrite_over_decorated_stream {S}
    (d : Precompiled.Decorated S) original string rc (s : S) :
  methods (Precompiled.base d) "write" = Some original ->
  EventUtil.genWrite (Precompiled.write d) string (rc, s) =
  match Precompiled.decorateMessage (Precompiled.decoration d) string emptyObject rc with
  | (Throw e, rc') => (Throw e, (rc', s))
  | (Ok message, rc') =>
      match original [message; VUndefined] s with
      | (Ok _, s') => (Ok VUndefined, (rc', s'))
      | (Throw e, s') => (Throw e, (rc', s'))
      end
  end
  /\ EventUtil.genSay (Precompiled.write d) string (rc, s) =
     match toStringV string with
     | Throw e => (Throw e, (rc, s))
     | Ok text =>
         match Precompiled.decorateMessage (Precompiled.decoration d)
                 (VStr (text +:+ EventUtil.CRLF)) emptyObject rc with
         | (Throw e, rc') => (Throw e, (rc', s))
         | (Ok message, rc') =>
             match original [message; VUndefined] s with
             | (Ok _, s') => (Ok VUndefined, (rc', s'))
             | (Throw e, s') => (Throw e, (rc', s'))
             end
         end
     end.
Proof.
  intros Horig. unfold EventUtil.genWrite, EventUtil.genSay, bind, liftR. split.
  - rewrite write_unfold, Horig. done.
  - destruct (toStringV string) as [text|e]; [|done].
    rewrite write_unfold, Horig. done.
Qed.

Lemma genWrite_over_decorated_stream_witness :
  methods (Precompiled.base Samples.decoratedConsole) "write"
  = methods (Samples.recorder (VStr "console")) "write"
  /\ forall original string rc s,
       methods (Precompiled.base Samples.decoratedConsole) "write" = Some original ->
       EventUtil.genWrite (Precompiled.write Samples.decoratedConsole) string (rc, s) =
       match Precompiled.decorateMessage
               (Precompiled.decoration Samples.decoratedConsole) string emptyObject rc with
       | (Throw e, rc') => (Throw e, (rc', s))
       | (Ok message, rc') =>
           match original [message; VUndefined] s with
           | (Ok _, s') => (Ok VUndefined, (rc', s'))
           | (Throw e, s') => (Throw e, (rc', s'))
           end
       end
       /\ EventUtil.genSay (Precompiled.write Samples.decoratedConsole) string (rc, s) =
          match toStringV string with
          | Throw e => (Throw e, (rc, s))
          | Ok text =>
              match Precompiled.decorateMessage
                      (Precompiled.decoration Samples.decoratedConsole)
                      (VStr (text +:+ EventUtil.CRLF)) emptyObject rc with
              | (Throw e, rc') => (Throw e, (rc', s))
              | (Ok message, rc') =>
                  match original [message; VUndefined] s with
                  | (Ok _, s') => (Ok VUndefined, (rc', s'))
                  | (Throw e, s') => (Throw e, (rc', s'))
                  end
              end
          end.
Proof.
  split; [reflexivity|].
  intros original string rc s H.
  exact (genWrite_over_decorated_stream Samples.decoratedConsole original string rc s H).
Defined.

(** ** The forms of a require setting *)

Lemma includes_dot_cons (c : ascii) (s : string) :
  includes "." (String c s) = Ascii.eqb c "."%char || includes "." s.
Proof.
  cbn [includes String.prefix].
  destruct (Ascii.ascii_dec "."%char c) as [<-|Hne].
  - by destruct s.
  - destruct (Ascii.eqb_spec c "."%char) as [->|_]; done.
Qed.

Lemma splitDot_app (moduleName rest : string) :
  includes "." moduleName = false ->
  splitDot (moduleName +:+ "." +:+ rest) = moduleName :: splitDot rest.
Proof.
  induction moduleName as [|c m IH]; [done|].
  rewrite includes_dot_cons. intros [Hc Hm]%orb_false_elim.
  rewrite append_cons. cbn [splitDot]. by rewrite Hc, IH.
Qed.

(** X13.  A [require] setting [moduleName.exportName...] whose module
    name is not empty and has no dot is resolved through [requireFn]
    alone: the class is the export of [requireFn(moduleName)] named by the
    text between the first and the second dot; what follows a second dot,
    the root path and the runtime's [require] play no part, and an
    exception of [requireFn] is passed on. *)
Theorem resolve_dotted require requireFn rootPath moduleName rest :
  moduleName <> EmptyString ->
  includes "." moduleName = false ->
  resolve require requireFn rootPath (moduleName +:+ "." +:+ rest) =
  match requireFn moduleName with
  | Throw e => Throw e
  | Ok m => Ok (exportNamed m (hd EmptyString (splitDot rest)))
  end.
Proof.
  intros Hne Hdot. unfold resolve.
  assert (startsWithDot (moduleName +:+ "." +:+ rest) = false) as ->.
  { destruct moduleName as [|c m]; [done|].
    rewrite includes_dot_cons in Hdot. apply orb_false_elim in Hdot as [Hc _].
    rewrite append_cons. exact Hc. }
  assert (includes "." (moduleName +:+ "." +:+ rest) = true) as ->
    by apply includes_app.
  simpl negb. cbv iota. rewrite splitDot_app by done. simpl.
  by destruct (splitDot rest).
Qed.

Lemma resolve_dotted_witness :
  "pack" <> EmptyString
  /\ includes "." "pack" = false
  /\ resolve Samples.require Samples.requireFn "/srv" ("pack" +:+ "." +:+ "SuffixA.more") =
     match Samples.requireFn "pack" with
     | Throw e => Throw e
     | Ok m => Ok (exportNamed m (hd EmptyString (splitDot "SuffixA.more")))
     end.
Proof.
  assert ("pack" <> EmptyString) as H1 by discriminate.
  assert (includes "." "pack" = false) as H2 by reflexivity.
  split; [exact H1|]. split; [exact H2|].
  exact (resolve_dotted Samples.require Samples.requireFn "/srv" "pack" "SuffixA.more"
           H1 H2).
Defined.

(** ** More on what the methods keep *)

Section Keeping.
Import Precompiled.
Implicit Types (r : Registry) (config : list (string * Value)).

(** X15.  Running a decoration never adds, removes, replaces or
    reconfigures a decorator and never touches rules or decorations: the
    registry it leaves holds the same names with instances of the same
    classes and the same [configure] calls, and the same [rules] and
    [decorations]; only the fields of the instances may have changed. *)
Theorem decorateMessage_keeps_instances decoration message options r :
  UpToFields (decorators r)
             (decorators (snd (decorateMessage decoration message options r)))
  /\ rules (snd (decorateMessage decoration message options r)) = rules r
  /\ decorations (snd (decorateMessage decoration message options r)) = decorations r.
Proof.
  rewrite decorateMessage_runSteps. unfold onDecorators, zoom.
  pose proof (runSteps_upToFields (defaultArg options emptyObject)
                (stepOf <$> decoration) message (decorators r)) as Hup.
  by destruct (runSteps _ _ _ (decorators r)) as [res ds'].
Qed.

(** X16.  What [loadRules] stored can be read back: after a call that
    returns, [getRules] gives every identifier of the configuration the
    array it was loaded with and [getDecoration] gives the closures
    compiled from that array, whatever the registry held for the
    identifier before. *)
Theorem loadRules_read_back config r r' key rs :
  loadRules config r = (Ok tt, r') ->
  NoDup config.*1 ->
  (key, VArr rs) ∈ config ->
  getRules r' (VStr key) = Some rs
  /\ exists decoration,
       getDecoration r' (VStr key) = Some decoration
       /\ Forall2 CompiledFrom rs decoration.
Proof.
  intros Hload Hnodup Hin.
  destruct (loadRules_registered _ _ _ _ _ Hload Hnodup Hin) as (fns & Hr & Hd & Hall).
  unfold getRules, getDecoration, mapHas. simpl. rewrite Hr. simpl. eauto.
Qed.

(** X17.  In a registry that the methods produced, [decorate] accepts a
    stream class exactly when its identifier is truthy and rules were
    loaded for it. *)
Theorem decorate_accepts_loaded_identifiers {S} r (sc : TransportStream S) :
  Reachable r ->
  isOk (decorate r sc) = true
  <-> truthy (identifier sc) = true /\ is_Some (mapGet (rules r) (identifier sc)).
Proof.
  intros Hreach. destruct (reachable_invariant r Hreach) as [_ Hr Hd].
  unfold decorate, getDecoration. destruct (truthy (identifier sc)); simpl.
  - destruct (identifier sc) as [| | | |key| |]; cbn [mapGet];
      try (split; [by destruct (toStringV _) | by intros [_ [? ?]]]).
    split.
    + destruct (decorations r !! key) as [fns|] eqn:Hfns; [|done].
      intros _. split; [done|]. apply Hd. eauto.
    + intros [_ [rs Hrs]]. destruct (Hr key rs Hrs) as (_ & fns & -> & _). done.
  - split; [done | by intros [? _]].
Qed.

(** Rules that load leave, for every entry, its rules and the result of
    compiling them in the registry. *)
Lemma loadRules_entries config r r' :
  loadRules config r = (Ok tt, r') ->
  NoDup config.*1 ->
  Forall (fun entry =>
            exists rs fns,
              entry.2 = VArr rs
              /\ Forall (ValidRule (decorators r)) rs
              /\ mapR compileRule rs = Ok fns
              /\ rules r' !! entry.1 = Some rs
              /\ decorations r' !! entry.1 = Some fns) config.
Proof.
  revert r. induction config as [|[key v] config IH]; intros r Hload Hnodup;
    [constructor|].
  rewrite fmap_cons in Hnodup. apply NoDup_cons in Hnodup as [Hkey Hnodup].
  rewrite loadRules_cons in Hload.
  destruct (loadRuleSet (key, v) r) as [[[]|e] r0] eqn:Hl; [|done].
  destruct (loadRules_other config r0 key Hkey) as [Hr Hd].
  rewrite Hload in Hr, Hd. simpl in Hr, Hd.
  pose proof (loadRuleSet_ok _ _ _ _ Hl) as (rs & fns0 & -> & Hvalid & _ & _).
  rewrite loadRuleSet_array in Hl.
  rewrite (proj2 (validateRules_ok key rs r) Hvalid) in Hl.
  destruct (mapR compileRule rs) as [fns|] eqn:Hfns; [|done].
  injection Hl as <-. simpl in *.
  constructor.
  - exists rs, fns. simpl. rewrite Hr, Hd, !lookup_insert_eq. done.
  - eapply Forall_impl; [by apply (IH _ Hload)|]. done.
Qed.

Lemma forOf_fixed {St A} (body : A -> M St unit) l s :
  Forall (fun x => body x s = (Ok tt, s)) l -> forOf body l s = (Ok tt, s).
Proof.
  induction 1 as [|x l Hx _ IH]; [done|]. simpl. unfold bind. by rewrite Hx.
Qed.

(** X18.  Loading the same rules again changes nothing: after a
    [loadRules] that returns, the same call returns again and leaves the
    registry as it is. *)
Theorem loadRules_idempotent config r r' :
  loadRules config r = (Ok tt, r') ->
  NoDup config.*1 ->
  loadRules config r' = (Ok tt, r').
Proof.
  intros Hload Hnodup. apply forOf_fixed.
  pose proof (loadRules_decorators config r) as Hds. rewrite Hload in Hds.
  simpl in Hds.
  eapply Forall_impl; [exact (loadRules_entries _ _ _ Hload Hnodup)|].
  intros [key v] (rs & fns & Hv & Hvalid & Hfns & Hr & Hd).
  simpl in Hv, Hr, Hd. subst v. cbv beta.
  rewrite loadRuleSet_array. rewrite <- Hds in Hvalid.
  rewrite (proj2 (validateRules_ok key rs r') Hvalid), Hfns.
  rewrite (insert_id _ _ _ Hr), (insert_id _ _ _ Hd). by destruct r'.
Qed.
End Keeping.

(** X19.  In the second variant too a decorated stream holds what
    [decorate] assembled: what its [write] returns, leaves in the stream
    and in [decorators] depends on the registry through [decorators] only,
    and [rules] is left as it is; rules loaded after [decorate] change
    nothing for the class already returned. *)
Theorem lazy_write_reads_decorators_only {S}
    (d : Lazy.Decorated S) args (rc rc' : Lazy.Registry) (s : S) :
  Lazy.decorators rc = Lazy.decorators rc' ->
  fst (Lazy.write d args (rc, s)) = fst (Lazy.write d args (rc', s))
  /\ snd (snd (Lazy.write d args (rc, s))) = snd (snd (Lazy.write d args (rc', s)))
  /\ Lazy.decorators (fst (snd (Lazy.write d args (rc, s))))
     = Lazy.decorators (fst (snd (Lazy.write d args (rc', s))))
  /\ Lazy.rules (fst (snd (Lazy.write d args (rc, s)))) = Lazy.rules rc.
Proof.
  intros Hds. rewrite !lazy_write_unfold, !lazy_reduce_runSteps.
  unfold Lazy.onDecorators, zoom. rewrite <- Hds.
  destruct (runSteps _ _ _ (Lazy.decorators rc)) as [[message|e] ds0]; simpl; [|done].
  destruct (methods (Lazy.base d) "write") as [original|]; simpl; [|done].
  by destruct (original _ s) as [[v|e] s0].
Qed.

Lemma loadRules_read_back_witness :
  Precompiled.loadRules Samples.rulesAB Samples.compiledA = (Ok tt, Cases.compiledAB)
  /\ NoDup Samples.rulesAB.*1
  /\ ("console", VArr [Samples.rule "a"; Samples.rule "b"]) ∈ Samples.rulesAB
  /\ Precompiled.getRules Cases.compiledAB (VStr "console")
     = Some [Samples.rule "a"; Samples.rule "b"]
  /\ exists decoration,
       Precompiled.getDecoration Cases.compiledAB (VStr "console") = Some decoration
       /\ Forall2 CompiledFrom [Samples.rule "a"; Samples.rule "b"] decoration.
Proof.
  assert (Precompiled.loadRules Samples.rulesAB Samples.compiledA
          = (Ok tt, Cases.compiledAB)) as H1 by (vm_compute; reflexivity).
  assert (NoDup Samples.rulesAB.*1) as H2 by apply NoDup_singleton.
  assert (("console", VArr [Samples.rule "a"; Samples.rule "b"]) ∈ Samples.rulesAB)
    as H3 by (apply list_elem_of_singleton; reflexivity).
  split; [exact H1|]. split; [exact H2|]. split; [exact H3|].
  exact (loadRules_read_back _ _ _ _ _ H1 H2 H3).
Defined.

Lemma decorate_accepts_loaded_identifiers_witness :
  Reachable Samples.compiledA
  /\ (isOk (Precompiled.decorate Samples.compiledA (Samples.recorder (VStr "console")))
      = true
      <-> truthy (identifier (Samples.recorder (VStr "console"))) = true
          /\ is_Some (mapGet (Precompiled.rules Samples.compiledA)
                        (identifier (Samples.recorder (VStr "console"))))).
Proof.
  split; [exact compiledA_reachable|].
  exact (decorate_accepts_loaded_identifiers Samples.compiledA
           (Samples.recorder (VStr "console")) compiledA_reachable).
Defined.

Lemma loadRules_idempotent_witness :
  Precompiled.loadRules Samples.rulesA Samples.loaded = (Ok tt, Samples.compiledA)
  /\ NoDup Samples.rulesA.*1
  /\ Precompiled.loadRules Samples.rulesA Samples.compiledA = (Ok tt, Samples.compiledA).
Proof.
  assert (Precompiled.loadRules Samples.rulesA Samples.loaded
          = (Ok tt, Samples.compiledA)) as H1 by (vm_compute; reflexivity).
  assert (NoDup Samples.rulesA.*1) as H2 by apply NoDup_singleton.
  split; [exact H1|]. split; [exact H2|].
  exact (loadRules_idempotent _ _ _ H1 H2).
Defined.

Lemma lazy_write_reads_decorators_only_witness :
  Lazy.decorators Cases.lazyAB = Lazy.decorators Samples.loadedLazy
  /\ fst (Lazy.write Cases.quietDecoratedLazy [VStr "hi"] (Cases.lazyAB, []))
     = fst (Lazy.write Cases.quietDecoratedLazy [VStr "hi"] (Samples.loadedLazy, []))
  /\ snd (snd (Lazy.write Cases.quietDecoratedLazy [VStr "hi"] (Cases.lazyAB, [])))
     = snd (snd (Lazy.write Cases.quietDecoratedLazy [VStr "hi"]
                   (Samples.loadedLazy, [])))
  /\ Lazy.decorators
       (fst (snd (Lazy.write Cases.quietDecoratedLazy [VStr "hi"] (Cases.lazyAB, []))))
     = Lazy.decorators
         (fst (snd (Lazy.write Cases.quietDecoratedLazy [VStr "hi"]
                      (Samples.loadedLazy, []))))
  /\ Lazy.rules
       (fst (snd (Lazy.write Cases.quietDecoratedLazy [VStr "hi"] (Cases.lazyAB, []))))
     = Lazy.rules Cases.lazyAB.
Proof.
  assert (Lazy.decorators Cases.lazyAB = Lazy.decorators Samples.loadedLazy) as H
    by (vm_compute; reflexivity).
  split; [exact H|].
  exact (lazy_write_reads_decorators_only Cases.quietDecoratedLazy [VStr "hi"] _ _ [] H).
Defined.
